(** * go-qemu: the image descriptor and its qemu-img invocations

    A shallow embedding of package [qemu] (image.go): the [Image] structure,
    its constructors and optimisation profiles, the argument sequences built
    for [qemu-img], and the parsing of [qemu-img info --output=json].

    Go values are modelled as follows.
    - [string] is [string]; [len(s) > 0] is [0 <? length s].
    - [uint64] is [N], [int64] and [int] are [Z]; no arithmetic is performed
      on them by the package, they are only stored, compared and printed.
    - [bool] is [bool]; a struct is a [Record]; [var x T] is the zero value.
    - [error] is [option error], [None] being [nil].
    - [exec.Command("qemu-img", args...).CombinedOutput()] is the one effect
      of the package: a computation is a tree [Proc] whose nodes are the
      invocations, each waiting for the tool's result. *)

From Stdlib Require Import ZArith NArith List Bool Ascii String Lia.
From Stdlib Require Import Numbers.DecimalString.
Import ListNotations.

Local Open Scope string_scope.
Local Open Scope Z_scope.

(** ** Constants *)

Definition ImageFormatRAW   : string := "raw".
Definition ImageFormatCLOOP : string := "cloop".
Definition ImageFormatCOW   : string := "cow".
Definition ImageFormatQCOW  : string := "qcow".
Definition ImageFormatQCOW2 : string := "qcow2".
Definition ImageFormatVDMK  : string := "vdmk".
Definition ImageFormatVDI   : string := "vdi".
Definition ImageFormatVHDX  : string := "vhdx".
Definition ImageFormatVPC   : string := "vpc".

Definition CompatLevelQCOW3 : string := "1.1".
Definition CompatLevelQCOW2 : string := "0.10".

Definition ImagePreallocMetadata : string := "metadata".
Definition ImagePreallocFalloc   : string := "falloc".
Definition ImagePreallocFull     : string := "full".

Definition CipherAlgorithmAES256     : string := "aes-256".
Definition CipherHashAlgorithmSHA256 : string := "sha256".
Definition CipherFormatLUKS          : string := "luks".
Definition CipherFormatAES           : string := "aes".
Definition CipherModeXTS             : string := "xts".
Definition IVGenAlgPlain64           : string := "plain64".
Definition IVGenHashAlgorithmSHA256  : string := "sha256".

(** ** Data *)

(** [time.Time]: the zero value, or the instant built by [time.Unix]. *)
Inductive Time : Type :=
| TimeZero : Time
| Unix (sec nsec : Z) : Time.

Record Snapshot : Type := mkSnapshot {
  ID      : Z;
  Name    : string;
  Date    : Time;
  VMClock : Time
}.

Definition Snapshot_zero : Snapshot := mkSnapshot 0 "" TimeZero TimeZero.

Record Image : Type := mkImage {
  Path                : string;
  Format              : string;
  Size                : N;
  Secret              : string;
  BackingFile         : string;
  Encrypted           : bool;
  LazyRefcounts       : bool;
  CompatLevel         : string;
  RefcountBits        : Z;
  ClusterSizeKB       : Z;
  ExtendedL2          : bool;
  Preallocation       : string;
  CipherAlgorithm     : string;
  CipherMode          : string;
  CipherFormat        : string;
  CipherHashAlg       : string;
  EncryptIterTime     : Z;
  EncryptIvGenAlg     : string;
  EncryptIvGenHashAlg : string;
  snapshots           : list Snapshot
}.

(** [var img Image] *)
Definition Image_zero : Image :=
  mkImage "" "" 0%N "" "" false false "" 0 0 false "" "" "" "" "" 0 "" "" [].

(** Field assignments [i.F = v]. *)
Definition set_Path (v : string) (i : Image) : Image :=
  mkImage v (Format i) (Size i) (Secret i) (BackingFile i) (Encrypted i)
    (LazyRefcounts i) (CompatLevel i) (RefcountBits i) (ClusterSizeKB i)
    (ExtendedL2 i) (Preallocation i) (CipherAlgorithm i) (CipherMode i)
    (CipherFormat i) (CipherHashAlg i) (EncryptIterTime i) (EncryptIvGenAlg i)
    (EncryptIvGenHashAlg i) (snapshots i).

Definition set_Format (v : string) (i : Image) : Image :=
  mkImage (Path i) v (Size i) (Secret i) (BackingFile i) (Encrypted i)
    (LazyRefcounts i) (CompatLevel i) (RefcountBits i) (ClusterSizeKB i)
    (ExtendedL2 i) (Preallocation i) (CipherAlgorithm i) (CipherMode i)
    (CipherFormat i) (CipherHashAlg i) (EncryptIterTime i) (EncryptIvGenAlg i)
    (EncryptIvGenHashAlg i) (snapshots i).

Definition set_Size (v : N) (i : Image) : Image :=
  mkImage (Path i) (Format i) v (Secret i) (BackingFile i) (Encrypted i)
    (LazyRefcounts i) (CompatLevel i) (RefcountBits i) (ClusterSizeKB i)
    (ExtendedL2 i) (Preallocation i) (CipherAlgorithm i) (CipherMode i)
    (CipherFormat i) (CipherHashAlg i) (EncryptIterTime i) (EncryptIvGenAlg i)
    (EncryptIvGenHashAlg i) (snapshots i).

Definition set_Secret (v : string) (i : Image) : Image :=
  mkImage (Path i) (Format i) (Size i) v (BackingFile i) (Encrypted i)
    (LazyRefcounts i) (CompatLevel i) (RefcountBits i) (ClusterSizeKB i)
    (ExtendedL2 i) (Preallocation i) (CipherAlgorithm i) (CipherMode i)
    (CipherFormat i) (CipherHashAlg i) (EncryptIterTime i) (EncryptIvGenAlg i)
    (EncryptIvGenHashAlg i) (snapshots i).

Definition set_BackingFile (v : string) (i : Image) : Image :=
  mkImage (Path i) (Format i) (Size i) (Secret i) v (Encrypted i)
    (LazyRefcounts i) (CompatLevel i) (RefcountBits i) (ClusterSizeKB i)
    (ExtendedL2 i) (Preallocation i) (CipherAlgorithm i) (CipherMode i)
    (CipherFormat i) (CipherHashAlg i) (EncryptIterTime i) (EncryptIvGenAlg i)
    (EncryptIvGenHashAlg i) (snapshots i).

Definition set_Encrypted (v : bool) (i : Image) : Image :=
  mkImage (Path i) (Format i) (Size i) (Secret i) (BackingFile i) v
    (LazyRefcounts i) (CompatLevel i) (RefcountBits i) (ClusterSizeKB i)
    (ExtendedL2 i) (Preallocation i) (CipherAlgorithm i) (CipherMode i)
    (CipherFormat i) (CipherHashAlg i) (EncryptIterTime i) (EncryptIvGenAlg i)
    (EncryptIvGenHashAlg i) (snapshots i).

Definition set_LazyRefcounts (v : bool) (i : Image) : Image :=
  mkImage (Path i) (Format i) (Size i) (Secret i) (BackingFile i) (Encrypted i)
    v (CompatLevel i) (RefcountBits i) (ClusterSizeKB i)
    (ExtendedL2 i) (Preallocation i) (CipherAlgorithm i) (CipherMode i)
    (CipherFormat i) (CipherHashAlg i) (EncryptIterTime i) (EncryptIvGenAlg i)
    (EncryptIvGenHashAlg i) (snapshots i).

Definition set_CompatLevel (v : string) (i : Image) : Image :=
  mkImage (Path i) (Format i) (Size i) (Secret i) (BackingFile i) (Encrypted i)
    (LazyRefcounts i) v (RefcountBits i) (ClusterSizeKB i)
    (ExtendedL2 i) (Preallocation i) (CipherAlgorithm i) (CipherMode i)
    (CipherFormat i) (CipherHashAlg i) (EncryptIterTime i) (EncryptIvGenAlg i)
    (EncryptIvGenHashAlg i) (snapshots i).

Definition set_RefcountBits (v : Z) (i : Image) : Image :=
  mkImage (Path i) (Format i) (Size i) (Secret i) (BackingFile i) (Encrypted i)
    (LazyRefcounts i) (CompatLevel i) v (ClusterSizeKB i)
    (ExtendedL2 i) (Preallocation i) (CipherAlgorithm i) (CipherMode i)
    (CipherFormat i) (CipherHashAlg i) (EncryptIterTime i) (EncryptIvGenAlg i)
    (EncryptIvGenHashAlg i) (snapshots i).

Definition set_ClusterSizeKB (v : Z) (i : Image) : Image :=
  mkImage (Path i) (Format i) (Size i) (Secret i) (BackingFile i) (Encrypted i)
    (LazyRefcounts i) (CompatLevel i) (RefcountBits i) v
    (ExtendedL2 i) (Preallocation i) (CipherAlgorithm i) (CipherMode i)
    (CipherFormat i) (CipherHashAlg i) (EncryptIterTime i) (EncryptIvGenAlg i)
    (EncryptIvGenHashAlg i) (snapshots i).

Definition set_ExtendedL2 (v : bool) (i : Image) : Image :=
  mkImage (Path i) (Format i) (Size i) (Secret i) (BackingFile i) (Encrypted i)
    (LazyRefcounts i) (CompatLevel i) (RefcountBits i) (ClusterSizeKB i)
    v (Preallocation i) (CipherAlgorithm i) (CipherMode i)
    (CipherFormat i) (CipherHashAlg i) (EncryptIterTime i) (EncryptIvGenAlg i)
    (EncryptIvGenHashAlg i) (snapshots i).

Definition set_Preallocation (v : string) (i : Image) : Image :=
  mkImage (Path i) (Format i) (Size i) (Secret i) (BackingFile i) (Encrypted i)
    (LazyRefcounts i) (CompatLevel i) (RefcountBits i) (ClusterSizeKB i)
    (ExtendedL2 i) v (CipherAlgorithm i) (CipherMode i)
    (CipherFormat i) (CipherHashAlg i) (EncryptIterTime i) (EncryptIvGenAlg i)
    (EncryptIvGenHashAlg i) (snapshots i).

Definition set_CipherAlgorithm (v : string) (i : Image) : Image :=
  mkImage (Path i) (Format i) (Size i) (Secret i) (BackingFile i) (Encrypted i)
    (LazyRefcounts i) (CompatLevel i) (RefcountBits i) (ClusterSizeKB i)
    (ExtendedL2 i) (Preallocation i) v (CipherMode i)
    (CipherFormat i) (CipherHashAlg i) (EncryptIterTime i) (EncryptIvGenAlg i)
    (EncryptIvGenHashAlg i) (snapshots i).

Definition set_CipherMode (v : string) (i : Image) : Image :=
  mkImage (Path i) (Format i) (Size i) (Secret i) (BackingFile i) (Encrypted i)
    (LazyRefcounts i) (CompatLevel i) (RefcountBits i) (ClusterSizeKB i)
    (ExtendedL2 i) (Preallocation i) (CipherAlgorithm i) v
    (CipherFormat i) (CipherHashAlg i) (EncryptIterTime i) (EncryptIvGenAlg i)
    (EncryptIvGenHashAlg i) (snapshots i).

Definition set_CipherFormat (v : string) (i : Image) : Image :=
  mkImage (Path i) (Format i) (Size i) (Secret i) (BackingFile i) (Encrypted i)
    (LazyRefcounts i) (CompatLevel i) (RefcountBits i) (ClusterSizeKB i)
    (ExtendedL2 i) (Preallocation i) (CipherAlgorithm i) (CipherMode i)
    v (CipherHashAlg i) (EncryptIterTime i) (EncryptIvGenAlg i)
    (EncryptIvGenHashAlg i) (snapshots i).

Definition set_CipherHashAlg (v : string) (i : Image) : Image :=
  mkImage (Path i) (Format i) (Size i) (Secret i) (BackingFile i) (Encrypted i)
    (LazyRefcounts i) (CompatLevel i) (RefcountBits i) (ClusterSizeKB i)
    (ExtendedL2 i) (Preallocation i) (CipherAlgorithm i) (CipherMode i)
    (CipherFormat i) v (EncryptIterTime i) (EncryptIvGenAlg i)
    (EncryptIvGenHashAlg i) (snapshots i).

Definition set_EncryptIterTime (v : Z) (i : Image) : Image :=
  mkImage (Path i) (Format i) (Size i) (Secret i) (BackingFile i) (Encrypted i)
    (LazyRefcounts i) (CompatLevel i) (RefcountBits i) (ClusterSizeKB i)
    (ExtendedL2 i) (Preallocation i) (CipherAlgorithm i) (CipherMode i)
    (CipherFormat i) (CipherHashAlg i) v (EncryptIvGenAlg i)
    (EncryptIvGenHashAlg i) (snapshots i).

Definition set_EncryptIvGenAlg (v : string) (i : Image) : Image :=
  mkImage (Path i) (Format i) (Size i) (Secret i) (BackingFile i) (Encrypted i)
    (LazyRefcounts i) (CompatLevel i) (RefcountBits i) (ClusterSizeKB i)
    (ExtendedL2 i) (Preallocation i) (CipherAlgorithm i) (CipherMode i)
    (CipherFormat i) (CipherHashAlg i) (EncryptIterTime i) v
    (EncryptIvGenHashAlg i) (snapshots i).

Definition set_EncryptIvGenHashAlg (v : string) (i : Image) : Image :=
  mkImage (Path i) (Format i) (Size i) (Secret i) (BackingFile i) (Encrypted i)
    (LazyRefcounts i) (CompatLevel i) (RefcountBits i) (ClusterSizeKB i)
    (ExtendedL2 i) (Preallocation i) (CipherAlgorithm i) (CipherMode i)
    (CipherFormat i) (CipherHashAlg i) (EncryptIterTime i) (EncryptIvGenAlg i)
    v (snapshots i).

Definition set_snapshots (v : list Snapshot) (i : Image) : Image :=
  mkImage (Path i) (Format i) (Size i) (Secret i) (BackingFile i) (Encrypted i)
    (LazyRefcounts i) (CompatLevel i) (RefcountBits i) (ClusterSizeKB i)
    (ExtendedL2 i) (Preallocation i) (CipherAlgorithm i) (CipherMode i)
    (CipherFormat i) (CipherHashAlg i) (EncryptIterTime i) (EncryptIvGenAlg i)
    (EncryptIvGenHashAlg i) v.

(** ** The external tool

    What [cmd.CombinedOutput()] hands back for [qemu-img info --output=json]
    is decoded by [json.Unmarshal] into the local structures [snapshotInfo]
    and [imgInfo].  A JSON document is represented by the members the struct
    tags name, each at most once: [None] is a key that is absent (or
    [null]), which leaves the zero value in the field; members no tag names
    are ignored by the decoder and are not represented.  Numbers are integer
    literals of any magnitude. *)

Module SnapshotObject.
Record t : Type := mk {
  id            : option string;
  name          : option string;
  date_sec      : option Z;
  date_nsec     : option Z;
  vm_clock_sec  : option Z;
  vm_clock_nsec : option Z
}.
End SnapshotObject.

Module InfoObject.
Record t : Type := mk {
  snapshots    : option (list SnapshotObject.t);
  format       : option string;
  virtual_size : option Z;
  encrypted    : option bool
}.
End InfoObject.

(** The combined stdout and stderr of one run: a JSON document of the shape
    above, or any other bytes (a diagnostic, or text that [json.Unmarshal]
    rejects for [imgInfo]: not JSON, or a member of the wrong JSON type). *)
Inductive Output : Type :=
| Text (s : string) : Output
| Document (doc : InfoObject.t) : Output.

(** [out, err := cmd.CombinedOutput()]; [failed] is [err != nil]. *)
Record CmdResult : Type := mkCmdResult {
  out    : Output;
  failed : bool
}.

(** Go's [error]: every error of the package is built by [fmt.Errorf], either
    from a fixed message or as ['qemu-img <cmd>' output: <oneLine(out)>].
    The helper [oneLine] is not part of image.go; the second form keeps the
    command and the raw output it is applied to. *)
Inductive error : Type :=
| Errorf (msg : string) : error
| ToolOutputError (cmd : string) (out : Output) : error.

(** A computation that may run [qemu-img]: it returns, or it invokes the tool
    with an argument sequence (what follows the program name ["qemu-img"] in
    [exec.Command]) and continues with the tool's result. *)
Inductive Proc (A : Type) : Type :=
| Ret (a : A) : Proc A
| Exec (args : list string) (k : CmdResult -> Proc A) : Proc A.

Arguments Ret {A} a.
Arguments Exec {A} args k.

Fixpoint bind {A B : Type} (p : Proc A) (f : A -> Proc B) : Proc B :=
  match p with
  | Ret a => f a
  | Exec args k => Exec args (fun r => bind (k r) f)
  end.

Declare Scope proc_scope.
Delimit Scope proc_scope with proc.
Notation "x <- c ;; k" := (bind c (fun x => k))
  (at level 61, c at next level, right associativity) : proc_scope.
Notation "' pat <- c ;; k" := (bind c (fun x => match x with pat => k end))
  (at level 61, pat pattern, c at next level, right associativity) : proc_scope.
Local Open Scope proc_scope.

(** [exec.Command("qemu-img", args...).CombinedOutput()] *)
Definition CombinedOutput (args : list string) : Proc CmdResult :=
  Exec args Ret.

(** Running a computation against the results the tool gives, in order.
    [None]: the script ended before the computation did. *)
Fixpoint run {A : Type} (script : list CmdResult) (p : Proc A) {struct p}
  : option A :=
  match p with
  | Ret a => Some a
  | Exec _ k =>
      match script with
      | [] => None
      | r :: rest => run rest (k r)
      end
  end.

(** The argument sequences of the invocations made along such a run. *)
Fixpoint calls {A : Type} (script : list CmdResult) (p : Proc A) {struct p}
  : list (list string) :=
  match p with
  | Ret _ => []
  | Exec args k =>
      args :: match script with
              | [] => []
              | r :: rest => calls rest (k r)
              end
  end.

(** The first invocation, if the computation makes any. *)
Definition first_call {A : Type} (p : Proc A) : option (list string) :=
  match p with
  | Ret _ => None
  | Exec args _ => Some args
  end.

(** Go's builtin [append(s, elems...)]. *)
Definition append {A : Type} (s : list A) (elems : list A) : list A :=
  (s ++ elems)%list.

(** ** Formatting and parsing of numbers *)

(** [strconv.FormatUint(n, 10)] *)
Definition FormatUint (n : N) : string :=
  NilZero.string_of_uint (N.to_uint n).

(** The verb [%d] of [fmt.Sprintf] on an [int64]. *)
Definition Sprintf_d (z : Z) : string :=
  NilZero.string_of_int (Z.to_int z).

Definition digit (c : ascii) : option Z :=
  let n := Z.of_nat (nat_of_ascii c) in
  if (48 <=? n) && (n <=? 57) then Some (n - 48) else None.

Fixpoint digits (s : string) (acc : Z) : option Z :=
  match s with
  | EmptyString => Some acc
  | String c s' =>
      match digit c with
      | Some d => digits s' (acc * 10 + d)
      | None => None
      end
  end.

(** [strconv.Atoi] on a platform whose [int] has 64 bits: an optional sign,
    then one or more decimal digits, the value within the range of [int];
    [None] is a non-nil error. *)
Definition Atoi (s : string) : option Z :=
  match s with
  | EmptyString => None
  | String c rest =>
      let neg := Ascii.eqb c "-" in
      let body := if neg || Ascii.eqb c "+" then rest else s in
      match body with
      | EmptyString => None
      | _ =>
          match digits body 0 with
          | None => None
          | Some n =>
              let v := if neg then - n else n in
              if (- 2 ^ 63 <=? v) && (v <=? 2 ^ 63 - 1) then Some v else None
          end
      end
  end.

(** ** Constructors *)

Definition NewImage (path format : string) (size : N) : Image :=
  let img := Image_zero in
  let img := set_Path path img in
  let img := set_Format format img in
  let img := set_Size size img in
  let img := set_ClusterSizeKB 64 img in
  let img := set_RefcountBits 16 img in
  img.

Definition NewEncryptedImage (path format secret : string) (size : N)
  : Image * option error :=
  let img := Image_zero in
  let img := set_Path path img in
  let img := set_Format format img in
  let img := set_Size size img in
  let img := set_Secret secret img in
  let img := set_Encrypted true img in
  let img := set_ClusterSizeKB 64 img in
  let img := set_RefcountBits 16 img in
  if negb (String.eqb format ImageFormatQCOW2) then
    (img, Some (Errorf "encrypted volumes must be of the type 'ImageFormatQCOW2'"))
  else
    (img, None).

(** ** Optimisation profiles (value receivers: the argument is a copy) *)

Definition OptimizeSpeed (i : Image) : Image :=
  let i := set_LazyRefcounts true i in
  let i := set_CompatLevel CompatLevelQCOW3 i in
  let i := set_RefcountBits 64 i in
  let i := set_ClusterSizeKB 1024 i in
  let i := set_ExtendedL2 true i in
  let i := set_Preallocation "full" i in
  if Encrypted i then
    let i := set_CipherAlgorithm CipherAlgorithmAES256 i in
    let i := set_CipherHashAlg CipherHashAlgorithmSHA256 i in
    let i := set_CipherFormat CipherFormatLUKS i in
    let i := set_CipherMode CipherModeXTS i in
    let i := set_EncryptIvGenAlg IVGenAlgPlain64 i in
    let i := set_EncryptIterTime 1000 i in
    let i := set_EncryptIvGenHashAlg IVGenHashAlgorithmSHA256 i in
    i
  else i.

Definition OptimizeSize (i : Image) : Image :=
  let i := set_RefcountBits 16 i in
  let i := set_ClusterSizeKB 64 i in
  let i := set_ExtendedL2 true i in
  let i := set_Preallocation "metadata" i in
  if Encrypted i then
    let i := set_CipherAlgorithm CipherAlgorithmAES256 i in
    let i := set_CipherHashAlg CipherHashAlgorithmSHA256 i in
    let i := set_CipherFormat CipherFormatLUKS i in
    let i := set_CipherMode CipherModeXTS i in
    let i := set_EncryptIvGenAlg IVGenAlgPlain64 i in
    let i := set_EncryptIterTime 2000 i in
    let i := set_EncryptIvGenHashAlg IVGenHashAlgorithmSHA256 i in
    i
  else i.

(** ** Inspection: [qemu-img info --output=json] *)

(** The local type [snapshotInfo] of [retreiveInfos]. *)
Module snapshotInfo.
Record t : Type := mk {
  ID        : string;   (* json:"id" *)
  Name      : string;   (* json:"name" *)
  DateSec   : Z;        (* json:"date-sec" *)
  DateNsec  : Z;        (* json:"date-nsec" *)
  ClockSec  : Z;        (* json:"vm-clock-sec" *)
  ClockNsec : Z         (* json:"vm-clock-nsec" *)
}.
End snapshotInfo.

(** The local type [imgInfo] of [retreiveInfos]. *)
Module imgInfo.
Record t : Type := mk {
  Snapshots : list snapshotInfo.t;  (* json:"snapshots" *)
  Format    : string;               (* json:"format" *)
  Size      : N;                    (* json:"virtual-size" *)
  Encrypted : bool                  (* json:"encrypted,omitempty" *)
}.
End imgInfo.

Definition fits_int64 (z : Z) : bool := (- 2 ^ 63 <=? z) && (z <=? 2 ^ 63 - 1).
Definition fits_uint64 (z : Z) : bool := (0 <=? z) && (z <=? 2 ^ 64 - 1).

(** Decoding a member into a field: an absent member leaves the zero value
    [zero]; a number that overflows the field's type is an error. *)
Definition member {A : Type} (zero : A) (m : option A) : A :=
  match m with
  | Some v => v
  | None => zero
  end.

Definition member_int64 (m : option Z) : option Z :=
  match m with
  | Some z => if fits_int64 z then Some z else None
  | None => Some 0
  end.

Definition member_uint64 (m : option Z) : option N :=
  match m with
  | Some z => if fits_uint64 z then Some (Z.to_N z) else None
  | None => Some 0%N
  end.

Definition Unmarshal_snapshotInfo (o : SnapshotObject.t) : option snapshotInfo.t :=
  match member_int64 (SnapshotObject.date_sec o),
        member_int64 (SnapshotObject.date_nsec o),
        member_int64 (SnapshotObject.vm_clock_sec o),
        member_int64 (SnapshotObject.vm_clock_nsec o) with
  | Some ds, Some dn, Some cs, Some cn =>
      Some (snapshotInfo.mk (member "" (SnapshotObject.id o))
                            (member "" (SnapshotObject.name o))
                            ds dn cs cn)
  | _, _, _, _ => None
  end.

Fixpoint Unmarshal_snapshots (l : list SnapshotObject.t)
  : option (list snapshotInfo.t) :=
  match l with
  | [] => Some []
  | o :: rest =>
      match Unmarshal_snapshotInfo o, Unmarshal_snapshots rest with
      | Some s, Some ss => Some (s :: ss)
      | _, _ => None
      end
  end.

(** [json.Unmarshal(out, &info)] with [var info imgInfo]; [None] is a non-nil
    error. *)
Definition Unmarshal (out : Output) : option imgInfo.t :=
  match out with
  | Text _ => None
  | Document doc =>
      match Unmarshal_snapshots (member [] (InfoObject.snapshots doc)),
            member_uint64 (InfoObject.virtual_size doc) with
      | Some snaps, Some size =>
          Some (imgInfo.mk snaps
                           (member "" (InfoObject.format doc))
                           size
                           (member false (InfoObject.encrypted doc)))
      | _, _ => None
      end
  end.

(** The body of the loop [for _, snap := range info.Snapshots]: the entry is
    skipped ([continue]) when its ID is not an integer, appended otherwise. *)
Definition appendSnapshot (acc : list Snapshot) (snap : snapshotInfo.t)
  : list Snapshot :=
  match Atoi (snapshotInfo.ID snap) with
  | None => acc
  | Some id =>
      let s := Snapshot_zero in
      let s := mkSnapshot id (Name s) (Date s) (VMClock s) in
      let s := mkSnapshot (ID s) (snapshotInfo.Name snap) (Date s) (VMClock s) in
      let s := mkSnapshot (ID s) (Name s)
                 (Unix (snapshotInfo.DateSec snap) (snapshotInfo.DateNsec snap))
                 (VMClock s) in
      let s := mkSnapshot (ID s) (Name s) (Date s)
                 (Unix (snapshotInfo.ClockSec snap) (snapshotInfo.ClockNsec snap)) in
      append acc [s]
  end.

(** [func (i *Image) retreiveInfos() (Image, error)].  The receiver is
    updated in place and [*i] is returned, so the [Image] of the result is
    both the returned value and the receiver after the call. *)
Definition retreiveInfos (i : Image) : Proc (Image * option error) :=
  r <- CombinedOutput ["info"; "--output=json"; Path i] ;;
  if failed r then
    Ret (i, Some (ToolOutputError "info" (out r)))
  else
    match Unmarshal (out r) with
    | None => Ret (i, Some (Errorf "'qemu-img info' invalid json output"))
    | Some info =>
        let i := set_Format (imgInfo.Format info) i in
        let i := set_Size (imgInfo.Size info) i in
        let i := if negb (String.eqb (Secret i) "")
                 then set_Encrypted true i
                 else set_Encrypted (imgInfo.Encrypted info) i in
        let i := set_snapshots [] i in
        let i := set_snapshots
                   (fold_left appendSnapshot (imgInfo.Snapshots info) (snapshots i))
                   i in
        Ret (i, None)
    end.

(** [func (i Image) Snapshots() ([]Snapshot, error)]: the receiver is a copy,
    refreshed by [retreiveInfos]; a nil slice is the empty list. *)
Definition Snapshots (i : Image) : Proc (list Snapshot * option error) :=
  '(i, err) <- retreiveInfos i ;;
  match err with
  | Some e => Ret ([], Some e)
  | None =>
      if (List.length (snapshots i) =? 0)%nat then Ret ([], None)
      else Ret (snapshots i, None)
  end.

(** ** Snapshot operations *)

(** The loop [for _, s := range snaps] of [CreateSnapshot], started from
    [snap] and [exists = false]: it stops ([break]) at the first entry whose
    name is [name]. *)
Fixpoint scanByName (name : string) (snaps : list Snapshot) (snap : Snapshot)
  : Snapshot * bool :=
  match snaps with
  | [] => (snap, false)
  | s :: rest =>
      if String.eqb (Name s) name then (s, true)
      else scanByName name rest snap
  end.

(** [func (i *Image) CreateSnapshot(name string) (Snapshot, error)].  The
    receiver is left as it was: [Snapshots] refreshes a copy. *)
Definition CreateSnapshot (i : Image) (name : string)
  : Proc (Snapshot * option error) :=
  let snap := Snapshot_zero in
  if Bool.eqb (Encrypted i) false then
    r <- CombinedOutput ["snapshot"; "-c"; name; Path i] ;;
    if failed r then
      Ret (snap, Some (ToolOutputError "snapshot" (out r)))
    else
      '(snaps, err) <- Snapshots i ;;
      match err with
      | Some e => Ret (snap, Some e)
      | None =>
          let '(snap, exists_) := scanByName name snaps snap in
          if exists_ then Ret (snap, None)
          else Ret (snap, Some (Errorf "couldn't find newly created snapshot"))
      end
  else
    r <- CombinedOutput ["snapshot"; "--object";
                         "secret,id=sec0,data=" ++ Secret i;
                         "--image-opts"; "-c"; name;
                         "encrypt.format=luks,encrypt.key-secret=sec0,file.filename="
                           ++ Path i] ;;
    if failed r then
      Ret (snap, Some (ToolOutputError "snapshot" (out r)))
    else
      '(snaps, err) <- Snapshots i ;;
      match err with
      | Some e => Ret (snap, Some e)
      | None =>
          let '(snap, exists_) := scanByName name snaps snap in
          if exists_ then Ret (snap, None)
          else Ret (snap, Some (Errorf "couldn't find newly created snapshot"))
      end.

(** [func (i Image) RestoreSnapshot(name string) error] *)
Definition RestoreSnapshot (i : Image) (name : string) : Proc (option error) :=
  if Bool.eqb (Encrypted i) false then
    r <- CombinedOutput ["snapshot"; "-a"; name; Path i] ;;
    if failed r then Ret (Some (ToolOutputError "snapshot" (out r)))
    else Ret None
  else
    r <- CombinedOutput ["snapshot"; "--object";
                         "secret,id=sec0,data=" ++ Secret i;
                         "--image-opts"; "-a"; name;
                         "encrypt.format=luks,encrypt.key-secret=sec0,file.filename="
                           ++ Path i] ;;
    if failed r then Ret (Some (ToolOutputError "snapshot" (out r)))
    else Ret None.

(** [func (i Image) DeleteSnapshot(name string) error] *)
Definition DeleteSnapshot (i : Image) (name : string) : Proc (option error) :=
  if Bool.eqb (Encrypted i) false then
    r <- CombinedOutput ["snapshot"; "-d"; name; Path i] ;;
    if failed r then Ret (Some (ToolOutputError "snapshot" (out r)))
    else Ret None
  else
    r <- CombinedOutput ["snapshot"; "--object";
                         "secret,id=sec0,data=" ++ Secret i;
                         "--image-opts"; "-d"; name;
                         "encrypt.format=luks,encrypt.key-secret=sec0,file.filename="
                           ++ Path i] ;;
    if failed r then Ret (Some (ToolOutputError "snapshot" (out r)))
    else Ret None.

(** ** Creation and rebasing *)

(** [func (i Image) Create() error].  the slice [args] is a list. *)
Definition Create (i : Image) : Proc (option error) :=
  if Bool.eqb (Encrypted i) false then
    let args := ["create"; "-f"; Format i] in
    let args :=
      if (0 <? String.length (BackingFile i))%nat then
        append (append args ["-o"]) ["backing_file=" ++ BackingFile i]
      else args in
    let args :=
      if (0 <? String.length (CompatLevel i))%nat then
        append (append args ["-o"]) ["compat=" ++ CompatLevel i]
      else args in
    let args :=
      if negb (ClusterSizeKB i =? 64) then
        append (append args ["-o"]) ["cluster_size=" ++ Sprintf_d (ClusterSizeKB i) ++ "K"]
      else args in
    let args :=
      if ExtendedL2 i then
        append (append args ["-o"]) ["extended_l2=on"]
      else args in
    let args :=
      if LazyRefcounts i then
        append (append args ["-o"]) ["lazy_refcounts=on"]
      else args in
    let args :=
      if (0 <? String.length (Preallocation i))%nat then
        append (append args ["-o"]) ["preallocation=" ++ Preallocation i]
      else
        append (append args ["-o"]) ["preallocation=metadata"] in
    let args :=
      if negb (RefcountBits i =? 16) then
        append (append args ["-o"]) ["refcount_bits=" ++ Sprintf_d (RefcountBits i)]
      else args in
    let args := append args [Path i] in
    let args := append args [FormatUint (Size i)] in
    r <- CombinedOutput args ;;
    if failed r then Ret (Some (ToolOutputError "create" (out r)))
    else Ret None
  else if negb (String.eqb (Format i) ImageFormatQCOW2) then
    Ret (Some (Errorf "encrypted volumes must be qcow2 format"))
  else
    let args := ["create"; "--object"; "secret,id=sec0,data=" ++ Secret i;
                 "-f"; Format i; "-o"; "encrypt.key-secret=sec0"] in
    let args :=
      if (0 <? String.length (BackingFile i))%nat then
        append (append args ["-o"]) ["backing_file=" ++ BackingFile i]
      else args in
    let args :=
      if (0 <? String.length (CompatLevel i))%nat then
        append (append args ["-o"]) ["compat=" ++ CompatLevel i]
      else args in
    let args :=
      if negb (ClusterSizeKB i =? 64) then
        append (append args ["-o"]) ["cluster_size=" ++ Sprintf_d (ClusterSizeKB i) ++ "K"]
      else args in
    let args :=
      if ExtendedL2 i then
        append (append args ["-o"]) ["extended_l2=on"]
      else args in
    let args :=
      if LazyRefcounts i then
        append (append args ["-o"]) ["lazy_refcounts=on"]
      else args in
    let args :=
      if (0 <? String.length (Preallocation i))%nat then
        append (append args ["-o"]) ["preallocation=" ++ Preallocation i]
      else
        append (append args ["-o"]) ["preallocation=metadata"] in
    let args :=
      if negb (RefcountBits i =? 16) then
        append (append args ["-o"]) ["refcount_bits=" ++ Sprintf_d (RefcountBits i)]
      else args in
    let args :=
      if negb (EncryptIterTime i =? 0) then
        append args ["-o"; "encrypt.iter-time=" ++ Sprintf_d (EncryptIterTime i)]
      else args in
    let args :=
      if (0 <? String.length (EncryptIvGenHashAlg i))%nat then
        append args ["-o"; "encrypt.ivgen-hash-alg=" ++ EncryptIvGenHashAlg i]
      else args in
    let args :=
      if (0 <? String.length (EncryptIvGenAlg i))%nat then
        append args ["-o"; "encrypt.ivgen-alg=" ++ EncryptIvGenAlg i]
      else args in
    let args :=
      if (0 <? String.length (CipherMode i))%nat then
        append args ["-o"; "encrypt.cipher-mode=" ++ CipherMode i]
      else args in
    let args :=
      if (0 <? String.length (CipherAlgorithm i))%nat then
        append args ["-o"; "encrypt.cipher-alg=" ++ CipherAlgorithm i]
      else args in
    let args :=
      if (0 <? String.length (CipherHashAlg i))%nat then
        append args ["-o"; "encrypt.hash-alg=" ++ CipherHashAlg i]
      else args in
    let args :=
      if (0 <? String.length (CipherFormat i))%nat then
        append args ["-o"; "encrypt.format=" ++ CipherFormat i]
      else
        append args ["-o"; "encrypt.format=luks"] in
    let args := append args [Path i] in
    let args := append args [FormatUint (Size i)] in
    r <- CombinedOutput args ;;
    if failed r then Ret (Some (ToolOutputError "create" (out r)))
    else Ret None.

(** [func (i *Image) Rebase(backingFile string) error]: the [Image] of the
    result is the receiver after the call. *)
Definition Rebase (i : Image) (backingFile : string)
  : Proc (Image * option error) :=
  let i := set_BackingFile backingFile i in
  r <- CombinedOutput ["rebase"; "-b"; backingFile; Path i] ;;
  if failed r then Ret (i, Some (ToolOutputError "rebase" (out r)))
  else Ret (i, None).

(** ** Vocabulary for statements about argument sequences *)

(** An optional [-o <option>] pair. *)
Definition flag (present : bool) (option_ : string) : list string :=
  if present then ["-o"; option_] else [].

(** The geometry options of an image, in the order backing file,
    compatibility level, cluster size, extended L2, lazy refcounts,
    preallocation (always present, [metadata] when unset), refcount bits. *)
Definition geometry_flags (i : Image) : list string :=
  List.concat
    [flag (0 <? String.length (BackingFile i))%nat ("backing_file=" ++ BackingFile i);
     flag (0 <? String.length (CompatLevel i))%nat ("compat=" ++ CompatLevel i);
     flag (negb (ClusterSizeKB i =? 64))
       ("cluster_size=" ++ Sprintf_d (ClusterSizeKB i) ++ "K");
     flag (ExtendedL2 i) "extended_l2=on";
     flag (LazyRefcounts i) "lazy_refcounts=on";
     ["-o"; "preallocation=" ++ (if (0 <? String.length (Preallocation i))%nat
                                 then Preallocation i else "metadata")];
     flag (negb (RefcountBits i =? 16))
       ("refcount_bits=" ++ Sprintf_d (RefcountBits i))].

(** The single encryption options. *)
Definition iter_time_flag (i : Image) : list string :=
  flag (negb (EncryptIterTime i =? 0))
    ("encrypt.iter-time=" ++ Sprintf_d (EncryptIterTime i)).
Definition ivgen_alg_flag (i : Image) : list string :=
  flag (0 <? String.length (EncryptIvGenAlg i))%nat
    ("encrypt.ivgen-alg=" ++ EncryptIvGenAlg i).
Definition ivgen_hash_flag (i : Image) : list string :=
  flag (0 <? String.length (EncryptIvGenHashAlg i))%nat
    ("encrypt.ivgen-hash-alg=" ++ EncryptIvGenHashAlg i).
Definition cipher_mode_flag (i : Image) : list string :=
  flag (0 <? String.length (CipherMode i))%nat
    ("encrypt.cipher-mode=" ++ CipherMode i).
Definition cipher_alg_flag (i : Image) : list string :=
  flag (0 <? String.length (CipherAlgorithm i))%nat
    ("encrypt.cipher-alg=" ++ CipherAlgorithm i).
Definition cipher_hash_flag (i : Image) : list string :=
  flag (0 <? String.length (CipherHashAlg i))%nat
    ("encrypt.hash-alg=" ++ CipherHashAlg i).
Definition cipher_format_flag (i : Image) : list string :=
  ["-o"; "encrypt.format=" ++ (if (0 <? String.length (CipherFormat i))%nat
                               then CipherFormat i else "luks")].

(** The argument sequence of an encrypted image in the order the
    specification words it: the key-secret reference, iteration time, IV
    generation algorithm, IV generation hash, cipher mode, cipher algorithm,
    cipher hash and cipher format, then the geometry options, then path and
    size. *)
Definition Create_args_as_specified (i : Image) : list string :=
  List.concat
    [["create"; "--object"; "secret,id=sec0,data=" ++ Secret i; "-f"; Format i];
     ["-o"; "encrypt.key-secret=sec0"];
     iter_time_flag i; ivgen_alg_flag i; ivgen_hash_flag i;
     cipher_mode_flag i; cipher_alg_flag i; cipher_hash_flag i;
     cipher_format_flag i;
     geometry_flags i;
     [Path i; FormatUint (Size i)]].

Definition encryption_option (s : string) : bool :=
  String.prefix "encrypt." s.

Definition geometry_option (s : string) : bool :=
  existsb (fun p => String.prefix p s)
    ["backing_file="; "compat="; "cluster_size="; "extended_l2=";
     "lazy_refcounts="; "preallocation="; "refcount_bits="].

(** No encryption option occurs after a geometry option. *)
Fixpoint encryption_before_geometry (args : list string) : bool :=
  match args with
  | [] => true
  | a :: rest =>
      (negb (geometry_option a) || negb (existsb encryption_option rest))
      && encryption_before_geometry rest
  end.

(** The position of the first occurrence of a token. *)
Fixpoint index (x : string) (l : list string) : option nat :=
  match l with
  | [] => None
  | y :: rest =>
      if String.eqb x y then Some 0%nat
      else option_map S (index x rest)
  end.

(** Both tokens occur, the first occurrence of [a] before that of [b]. *)
Definition precedes (a b : string) (l : list string) : bool :=
  match index a l, index b l with
  | Some m, Some n => (m <? n)%nat
  | _, _ => false
  end.

(** ** Vocabulary for statements about inspection *)

(** The [id] member of a snapshot entry parses as an integer. *)
Definition id_parses (o : SnapshotObject.t) : bool :=
  match Atoi (member "" (SnapshotObject.id o)) with
  | Some _ => true
  | None => false
  end.

(** The snapshot [s] records the entry [o]: its identifier is the integer
    read from [id], its name and its two instants are those of the entry. *)
Definition records (o : SnapshotObject.t) (s : Snapshot) : Prop :=
  Atoi (member "" (SnapshotObject.id o)) = Some (ID s)
  /\ Name s = member "" (SnapshotObject.name o)
  /\ Date s = Unix (member 0 (SnapshotObject.date_sec o))
                   (member 0 (SnapshotObject.date_nsec o))
  /\ VMClock s = Unix (member 0 (SnapshotObject.vm_clock_sec o))
                      (member 0 (SnapshotObject.vm_clock_nsec o)).

(** What one decoded entry contributes to the snapshot list. *)
Definition contribution (snap : snapshotInfo.t) : list Snapshot :=
  match Atoi (snapshotInfo.ID snap) with
  | None => []
  | Some id =>
      [mkSnapshot id (snapshotInfo.Name snap)
         (Unix (snapshotInfo.DateSec snap) (snapshotInfo.DateNsec snap))
         (Unix (snapshotInfo.ClockSec snap) (snapshotInfo.ClockNsec snap))]
  end.

Definition GiB : N := 1073741824.

(** ** Sample inputs *)

(** A successful run of [qemu-img info] that reports [encrypted: false] and
    three snapshots, the second with an [id] that is not a number. *)
Definition sample_document : InfoObject.t :=
  InfoObject.mk
    (Some [SnapshotObject.mk (Some "1") (Some "base") (Some 1700000000) (Some 5)
             (Some 12) (Some 7);
           SnapshotObject.mk (Some "x2") (Some "broken") (Some 1700000100) (Some 0)
             (Some 13) (Some 0);
           SnapshotObject.mk (Some "3") (Some "nightly") (Some 1700000200) (Some 9)
             (Some 14) (Some 1)])
    (Some "qcow2") (Some 5368709120) (Some false).

(** A report without an [encrypted] member and without snapshots. *)
Definition bare_document : InfoObject.t :=
  InfoObject.mk None (Some "qcow2") (Some 5368709120) None.

(** A report with two snapshots named [nightly]. *)
Definition twin_document : InfoObject.t :=
  InfoObject.mk
    (Some [SnapshotObject.mk (Some "1") (Some "base") (Some 1700000000) (Some 5)
             (Some 12) (Some 7);
           SnapshotObject.mk (Some "2") (Some "nightly") (Some 1700000100) (Some 0)
             (Some 13) (Some 0);
           SnapshotObject.mk (Some "3") (Some "nightly") (Some 1700000200) (Some 9)
             (Some 14) (Some 1)])
    (Some "qcow2") (Some 5368709120) None.

Definition succeeded (o : Output) : CmdResult := mkCmdResult o false.

(** The descriptor [OpenEncryptedImage] inspects: path, [Encrypted] and the
    secret set on the zero value. *)
Definition opened_with_secret : Image :=
  set_Secret "secret1" (set_Encrypted true (set_Path "enc.qcow2" Image_zero)).

(** The descriptor [OpenImage] inspects: only the path set. *)
Definition opened_plain : Image := set_Path "disk.qcow2" Image_zero.


(** ** The file system: [OpenImage], [OpenEncryptedImage], [SetBackingFile] *)

(** The error of [os.Stat(name)], a [*PathError]: the package only asks
    [os.IsNotExist] of it and hands it back to the caller. *)
Record PathError : Type := mkPathError {
  ErrPath  : string;
  NotExist : bool
}.

(** The [error] values these three functions return: the one [os.Stat] gave,
    or one the package built. *)
Inductive goerror : Type :=
| FromStat (e : PathError) : goerror
| FromPackage (e : error) : goerror.

(** [os.IsNotExist(err)]; false on a nil error. *)
Definition IsNotExist (err : option PathError) : bool :=
  match err with
  | Some e => NotExist e
  | None => false
  end.

(** A computation that first asks [os.Stat(name)] and then may run the
    tool. *)
Inductive FileOp (A : Type) : Type :=
| Stat (name : string) (k : option PathError -> Proc A) : FileOp A.

Arguments Stat {A} name k.

(** Running such a computation: [st] is what [os.Stat] answers. *)
Definition runFile {A : Type} (st : option PathError) (script : list CmdResult)
           (op : FileOp A) : option A :=
  match op with
  | Stat _ k => run script (k st)
  end.

(** The tool invocations made along that run. *)
Definition callsFile {A : Type} (st : option PathError) (script : list CmdResult)
           (op : FileOp A) : list (list string) :=
  match op with
  | Stat _ k => calls script (k st)
  end.

(** The name handed to [os.Stat]. *)
Definition statName {A : Type} (op : FileOp A) : string :=
  match op with
  | Stat name _ => name
  end.

(** [func OpenImage(path string) (Image, error)] *)
Definition OpenImage (path : string) : FileOp (Image * option goerror) :=
  let img := Image_zero in
  Stat path (fun err =>
    if IsNotExist err then Ret (img, option_map FromStat err)
    else
      let img := set_Path path img in
      '(img, err) <- retreiveInfos img ;;
      match err with
      | Some e => Ret (img, Some (FromPackage e))
      | None =>
          if Encrypted img then
            Ret (img, Some (FromPackage
                   (Errorf "image is encrypted but secret was not provided")))
          else Ret (img, None)
      end).

(** [func OpenEncryptedImage(path, secret string) (Image, error)] *)
Definition OpenEncryptedImage (path secret : string)
  : FileOp (Image * option goerror) :=
  let img := Image_zero in
  Stat path (fun err =>
    if IsNotExist err then Ret (img, option_map FromStat err)
    else
      let img := set_Path path img in
      let img := set_Encrypted true img in
      let img := set_Secret secret img in
      '(img, err) <- retreiveInfos img ;;
      match err with
      | Some e => Ret (img, Some (FromPackage e))
      | None =>
          if String.eqb secret "" then
            Ret (img, Some (FromPackage
                   (Errorf "cannot open encrypted image without secret")))
          else if negb (Encrypted img) then
            Ret (img, Some (FromPackage (Errorf "image is not encrypted")))
          else Ret (img, None)
      end).

(** [func (i *Image) SetBackingFile(backingFile string) error]: the [Image]
    of the result is the receiver after the call. *)
Definition SetBackingFile (i : Image) (backingFile : string)
  : FileOp (Image * option goerror) :=
  Stat backingFile (fun err =>
    if IsNotExist err then Ret (i, option_map FromStat err)
    else
      let i := set_BackingFile backingFile i in
      Ret (i, None)).

(** ** The example program (package [main]) *)

(** How an example ends: [panic(err.Error())], or the line printed by
    [fmt.Printf] from the snapshot's name, ID and date. *)
Inductive Outcome : Type :=
| Panicked (e : error) : Outcome
| Printed (name : string) (id : Z) (date : Time) : Outcome.

(** [func EncryptedVolume()] *)
Definition EncryptedVolume : Proc Outcome :=
  let '(vol, err) := NewEncryptedImage "rockyLinux.qcow2" ImageFormatQCOW2
                       "yourPrivateSecret" (100 * GiB) in
  match err with
  | Some e => Ret (Panicked e)
  | None =>
      err <- Create vol ;;
      match err with
      | Some e => Ret (Panicked e)
      | None =>
          '(snapshot, err) <- CreateSnapshot vol "myTestSnapshot" ;;
          match err with
          | Some e => Ret (Panicked e)
          | None => Ret (Printed (Name snapshot) (ID snapshot) (Date snapshot))
          end
      end
  end.

(** [func StandardVolume()] *)
Definition StandardVolume : Proc Outcome :=
  let vol := NewImage "CentOS.qcow2" ImageFormatQCOW2 (100 * GiB) in
  err <- Create vol ;;
  match err with
  | Some e => Ret (Panicked e)
  | None =>
      '(snapshot, err) <- CreateSnapshot vol "myTestSnapshot" ;;
      match err with
      | Some e => Ret (Panicked e)
      | None => Ret (Printed (Name snapshot) (ID snapshot) (Date snapshot))
      end
  end.

(** ** Vocabulary for the further statements *)

(** The document reports the image as encrypted. *)
Definition reports_encrypted (doc : InfoObject.t) : bool :=
  member false (InfoObject.encrypted doc).

(** The argument sequence of [Create] for an image that is not encrypted. *)
Definition plain_create_args (i : Image) : list string :=
  List.concat
    [["create"; "-f"; Format i];
     geometry_flags i;
     [Path i; FormatUint (Size i)]].

(** The argument sequence of [Create] for an encrypted qcow2 image. *)
Definition encrypted_create_args (i : Image) : list string :=
  List.concat
    [["create"; "--object"; "secret,id=sec0,data=" ++ Secret i;
      "-f"; Format i; "-o"; "encrypt.key-secret=sec0"];
     geometry_flags i;
     iter_time_flag i; ivgen_hash_flag i; ivgen_alg_flag i;
     cipher_mode_flag i; cipher_alg_flag i; cipher_hash_flag i;
     cipher_format_flag i;
     [Path i; FormatUint (Size i)]].

(** What an operation named [cmd] returns once the tool has answered. *)
Definition tool_error (cmd : string) (r : CmdResult) : option error :=
  if failed r then Some (ToolOutputError cmd (out r)) else None.

(** The continuation of [Create] after the tool has answered. *)
Definition create_reply (r : CmdResult) : Proc (option error) :=
  if failed r then Ret (Some (ToolOutputError "create" (out r))) else Ret None.

(** The argument sequence of the inspection of an image. *)
Definition info_args (i : Image) : list string :=
  ["info"; "--output=json"; Path i].

(** The argument sequence of a snapshot operation, [flag_] being [-c], [-a]
    or [-d]. *)
Definition snapshot_args (i : Image) (flag_ name : string) : list string :=
  if Encrypted i then
    ["snapshot"; "--object"; "secret,id=sec0,data=" ++ Secret i; "--image-opts";
     flag_; name;
     "encrypt.format=luks,encrypt.key-secret=sec0,file.filename=" ++ Path i]
  else
    ["snapshot"; flag_; name; Path i].

(** The end of [CreateSnapshot], from what the listing returned. *)
Definition lookup_result (name : string) (res : list Snapshot * option error)
  : Snapshot * option error :=
  match snd res with
  | Some e => (Snapshot_zero, Some e)
  | None =>
      (fst (scanByName name (fst res) Snapshot_zero),
       if snd (scanByName name (fst res) Snapshot_zero) then None
       else Some (Errorf "couldn't find newly created snapshot"))
  end.

(** The last two elements of a list. *)
Definition last_two {A : Type} (l : list A) : list A :=
  skipn (List.length l - 2) l.

(** * Properties *)

(** ** Sanity checks of the number helpers *)

Example FormatUint_10GiB : FormatUint (10 * 2 ^ 30) = "10737418240".
Proof. reflexivity. Qed.
Example FormatUint_0 : FormatUint 0 = "0".
Proof. reflexivity. Qed.
Example Sprintf_d_neg : Sprintf_d (-5) = "-5" /\ Sprintf_d 0 = "0" /\ Sprintf_d 1024 = "1024".
Proof. repeat split. Qed.
Example Atoi_ex : Atoi "12" = Some 12 /\ Atoi "-7" = Some (-7) /\ Atoi "+3" = Some 3
  /\ Atoi "" = None /\ Atoi "-" = None /\ Atoi "1a" = None /\ Atoi "abc" = None
  /\ Atoi "9223372036854775808" = None /\ Atoi "-9223372036854775808" = Some (- 2 ^ 63).
Proof. repeat split. Qed.

(** ** Constructors and profiles *)

(** C4. For every path, secret and size and every format other than qcow2,
    [NewEncryptedImage] returns a non-nil error together with a fully
    populated descriptor: [Encrypted] is true, the secret, path, format and
    size are recorded, and the geometry defaults (cluster size 64, refcount
    bits 16) are set. *)
Theorem NewEncryptedImage_not_qcow2 (path format secret : string) (size : N) :
  format <> ImageFormatQCOW2 ->
  let (img, err) := NewEncryptedImage path format secret size in
  err = Some (Errorf "encrypted volumes must be of the type 'ImageFormatQCOW2'")
  /\ Encrypted img = true
  /\ Secret img = secret
  /\ Path img = path
  /\ Format img = format
  /\ Size img = size
  /\ img = mkImage path format size secret "" true false "" 16 64 false
             "" "" "" "" "" 0 "" "" [].
Proof.
  intros Hfmt. unfold NewEncryptedImage.
  destruct (String.eqb format ImageFormatQCOW2) eqn:E.
  - apply String.eqb_eq in E. contradiction.
  - cbn. repeat split.
Qed.

Lemma NewEncryptedImage_not_qcow2_witness :
  let (img, err) := NewEncryptedImage "disk.raw" ImageFormatRAW "secret1" (5 * GiB) in
  err = Some (Errorf "encrypted volumes must be of the type 'ImageFormatQCOW2'")
  /\ Encrypted img = true
  /\ Secret img = "secret1"
  /\ Path img = "disk.raw"
  /\ Format img = ImageFormatRAW
  /\ Size img = (5 * GiB)%N
  /\ img = mkImage "disk.raw" ImageFormatRAW (5 * GiB) "secret1" "" true false
             "" 16 64 false "" "" "" "" "" 0 "" "" [].
Proof.
  apply (NewEncryptedImage_not_qcow2 "disk.raw" ImageFormatRAW "secret1" (5 * GiB)).
  discriminate.
Defined.

(** The size profile never assigns [LazyRefcounts] or [CompatLevel]. *)
Lemma OptimizeSize_keeps (i : Image) :
  LazyRefcounts (OptimizeSize i) = LazyRefcounts i
  /\ CompatLevel (OptimizeSize i) = CompatLevel i.
Proof.
  unfold OptimizeSize. cbn. destruct (Encrypted i); split; reflexivity.
Qed.

(** C1, as stated, fails: on a fresh plain image the speed profile followed by
    the size profile leaves [LazyRefcounts = true] and [CompatLevel = "1.1"],
    where the size profile alone leaves [false] and the empty string. *)
Lemma speed_then_size_differs_from_size :
  let d := NewImage "a.qcow2" ImageFormatQCOW2 (5 * GiB) in
  LazyRefcounts (OptimizeSize (OptimizeSpeed d)) = true
  /\ LazyRefcounts (OptimizeSize d) = false
  /\ CompatLevel (OptimizeSize (OptimizeSpeed d)) = "1.1"
  /\ CompatLevel (OptimizeSize d) = ""
  /\ ~ (LazyRefcounts (OptimizeSize (OptimizeSpeed d)) = LazyRefcounts (OptimizeSize d)
        /\ CompatLevel (OptimizeSize (OptimizeSpeed d)) = CompatLevel (OptimizeSize d)).
Proof.
  cbn. repeat split. intros [H _]. discriminate H.
Qed.

(** C1, amended. For every base image [d], the speed profile followed by the
    size profile agrees with the size profile alone on every field the size
    profile assigns (refcount bits, cluster size, extended L2, preallocation
    and, for an encrypted image, the cipher suite and iteration time) and on
    every field no profile assigns; [LazyRefcounts] and [CompatLevel], which
    only the speed profile assigns, keep the speed profile's values. *)
Theorem OptimizeSpeed_then_OptimizeSize (d : Image) :
  OptimizeSize (OptimizeSpeed d)
    = set_LazyRefcounts true (set_CompatLevel CompatLevelQCOW3 (OptimizeSize d))
  /\ RefcountBits (OptimizeSize (OptimizeSpeed d)) = RefcountBits (OptimizeSize d)
  /\ ClusterSizeKB (OptimizeSize (OptimizeSpeed d)) = ClusterSizeKB (OptimizeSize d)
  /\ ExtendedL2 (OptimizeSize (OptimizeSpeed d)) = ExtendedL2 (OptimizeSize d)
  /\ Preallocation (OptimizeSize (OptimizeSpeed d)) = Preallocation (OptimizeSize d)
  /\ CipherAlgorithm (OptimizeSize (OptimizeSpeed d)) = CipherAlgorithm (OptimizeSize d)
  /\ CipherHashAlg (OptimizeSize (OptimizeSpeed d)) = CipherHashAlg (OptimizeSize d)
  /\ CipherFormat (OptimizeSize (OptimizeSpeed d)) = CipherFormat (OptimizeSize d)
  /\ CipherMode (OptimizeSize (OptimizeSpeed d)) = CipherMode (OptimizeSize d)
  /\ EncryptIvGenAlg (OptimizeSize (OptimizeSpeed d)) = EncryptIvGenAlg (OptimizeSize d)
  /\ EncryptIterTime (OptimizeSize (OptimizeSpeed d)) = EncryptIterTime (OptimizeSize d)
  /\ EncryptIvGenHashAlg (OptimizeSize (OptimizeSpeed d))
       = EncryptIvGenHashAlg (OptimizeSize d)
  /\ LazyRefcounts (OptimizeSize (OptimizeSpeed d)) = true
  /\ CompatLevel (OptimizeSize (OptimizeSpeed d)) = CompatLevelQCOW3.
Proof.
  destruct d as [p f sz sec bf enc lr cl rb cs e2 pa ca cm cf ch it ia ih sn].
  destruct enc; vm_compute; repeat split.
Qed.

(** The constructors as record literals. *)
Lemma NewImage_fields (path format : string) (size : N) :
  NewImage path format size
    = mkImage path format size "" "" false false "" 16 64 false
        "" "" "" "" "" 0 "" "" [].
Proof. vm_compute. reflexivity. Qed.

Lemma NewEncryptedImage_qcow2_fields (path secret : string) (size : N) :
  NewEncryptedImage path ImageFormatQCOW2 secret size
    = (mkImage path ImageFormatQCOW2 size secret "" true false "" 16 64 false
         "" "" "" "" "" 0 "" "" [], None).
Proof. vm_compute. reflexivity. Qed.

(** ** Creation *)

(** C6. For every path, format and size, [Create] on the descriptor built by
    [NewImage], its geometry left at the constructor defaults, invokes the
    tool with exactly [create -f <format> -o preallocation=metadata <path>
    <size in decimal>], with no other [-o] flag; in particular
    [NewImage("test.qcow2", qcow2, 10*2^30)] renders
    [create -f qcow2 -o preallocation=metadata test.qcow2 10737418240]. *)
Theorem Create_NewImage_args (path format : string) (size : N) :
  first_call (Create (NewImage path format size))
    = Some ["create"; "-f"; format; "-o"; "preallocation=metadata";
            path; FormatUint size]
  /\ first_call (Create (NewImage "test.qcow2" ImageFormatQCOW2 (10 * 2 ^ 30)))
    = Some ["create"; "-f"; "qcow2"; "-o"; "preallocation=metadata";
            "test.qcow2"; "10737418240"].
Proof.
  rewrite !NewImage_fields. split; reflexivity.
Qed.

(** C7. For every image with [Encrypted = true] and a format other than
    qcow2, [Create] returns the error at once: it builds no argument sequence
    and makes no invocation of the tool, whatever the tool would answer. *)
Theorem Create_encrypted_not_qcow2 (i : Image) :
  Encrypted i = true ->
  Format i <> ImageFormatQCOW2 ->
  Create i = Ret (Some (Errorf "encrypted volumes must be qcow2 format"))
  /\ first_call (Create i) = None
  /\ forall script, calls script (Create i) = [].
Proof.
  intros HE HF.
  assert (HC : Create i = Ret (Some (Errorf "encrypted volumes must be qcow2 format"))).
  { unfold Create. rewrite HE. cbn [Bool.eqb].
    destruct (String.eqb (Format i) ImageFormatQCOW2) eqn:E.
    - apply String.eqb_eq in E. contradiction.
    - reflexivity. }
  rewrite HC. split; [reflexivity | split; [reflexivity | intros; reflexivity]].
Qed.

Lemma Create_encrypted_not_qcow2_witness :
  let i := fst (NewEncryptedImage "disk.raw" ImageFormatRAW "secret1" (5 * GiB)) in
  Create i = Ret (Some (Errorf "encrypted volumes must be qcow2 format"))
  /\ first_call (Create i) = None
  /\ forall script, calls script (Create i) = [].
Proof.
  apply (Create_encrypted_not_qcow2
           (fst (NewEncryptedImage "disk.raw" ImageFormatRAW "secret1" (5 * GiB)))).
  - reflexivity.
  - vm_compute. discriminate.
Defined.

(** ** Snapshot operations of an encrypted image *)

(** C8. For every encrypted image, the argument sequence of each snapshot
    operation (create, restore, delete) carries the secret itself, in clear
    text, inside the token [secret,id=sec0,data=<secret>]. *)
Theorem snapshot_args_carry_secret (i : Image) (name : string) :
  Encrypted i = true ->
  let token := "secret,id=sec0,data=" ++ Secret i in
  let opts := "encrypt.format=luks,encrypt.key-secret=sec0,file.filename=" ++ Path i in
  first_call (CreateSnapshot i name)
    = Some ["snapshot"; "--object"; token; "--image-opts"; "-c"; name; opts]
  /\ first_call (RestoreSnapshot i name)
    = Some ["snapshot"; "--object"; token; "--image-opts"; "-a"; name; opts]
  /\ first_call (DeleteSnapshot i name)
    = Some ["snapshot"; "--object"; token; "--image-opts"; "-d"; name; opts]
  /\ (forall args,
        In (Some args) [first_call (CreateSnapshot i name);
                        first_call (RestoreSnapshot i name);
                        first_call (DeleteSnapshot i name)] ->
        In ("secret,id=sec0,data=" ++ Secret i) args).
Proof.
  intros HE token opts.
  unfold CreateSnapshot, RestoreSnapshot, DeleteSnapshot.
  rewrite HE. cbn [Bool.eqb first_call bind CombinedOutput].
  repeat (split; [reflexivity |]).
  intros args [H | [H | [H | []]]]; injection H as <-;
    right; right; left; reflexivity.
Qed.

Lemma snapshot_args_carry_secret_witness :
  let i := fst (NewEncryptedImage "enc.qcow2" ImageFormatQCOW2 "secret1" (5 * GiB)) in
  first_call (CreateSnapshot i "snap1")
    = Some ["snapshot"; "--object"; "secret,id=sec0,data=secret1"; "--image-opts";
            "-c"; "snap1";
            "encrypt.format=luks,encrypt.key-secret=sec0,file.filename=enc.qcow2"]
  /\ first_call (RestoreSnapshot i "snap1")
    = Some ["snapshot"; "--object"; "secret,id=sec0,data=secret1"; "--image-opts";
            "-a"; "snap1";
            "encrypt.format=luks,encrypt.key-secret=sec0,file.filename=enc.qcow2"]
  /\ first_call (DeleteSnapshot i "snap1")
    = Some ["snapshot"; "--object"; "secret,id=sec0,data=secret1"; "--image-opts";
            "-d"; "snap1";
            "encrypt.format=luks,encrypt.key-secret=sec0,file.filename=enc.qcow2"]
  /\ (forall args,
        In (Some args) [first_call (CreateSnapshot i "snap1");
                        first_call (RestoreSnapshot i "snap1");
                        first_call (DeleteSnapshot i "snap1")] ->
        In "secret,id=sec0,data=secret1" args).
Proof.
  apply (snapshot_args_carry_secret
           (fst (NewEncryptedImage "enc.qcow2" ImageFormatQCOW2 "secret1" (5 * GiB)))
           "snap1").
  reflexivity.
Defined.

(** ** Rebasing *)

(** C10. [Rebase] assigns [BackingFile] before it invokes the tool with
    [rebase -b <backingFile> <path>]: whatever the tool answers, failure
    included, the receiver ends with [BackingFile] equal to the argument and
    every other field as it was. *)
Theorem Rebase_sets_BackingFile (i : Image) (backingFile : string) (r : CmdResult) :
  first_call (Rebase i backingFile) = Some ["rebase"; "-b"; backingFile; Path i]
  /\ run [r] (Rebase i backingFile)
      = Some (set_BackingFile backingFile i,
              if failed r then Some (ToolOutputError "rebase" (out r)) else None)
  /\ BackingFile (set_BackingFile backingFile i) = backingFile
  /\ set_BackingFile backingFile i
      = mkImage (Path i) (Format i) (Size i) (Secret i) backingFile (Encrypted i)
          (LazyRefcounts i) (CompatLevel i) (RefcountBits i) (ClusterSizeKB i)
          (ExtendedL2 i) (Preallocation i) (CipherAlgorithm i) (CipherMode i)
          (CipherFormat i) (CipherHashAlg i) (EncryptIterTime i)
          (EncryptIvGenAlg i) (EncryptIvGenHashAlg i) (snapshots i).
Proof.
  unfold Rebase. cbn [first_call bind CombinedOutput run].
  split; [reflexivity |].
  split; [destruct (failed r); reflexivity |].
  split; reflexivity.
Qed.

(** ** Creation of an encrypted image *)

(** One conditional pair of appends is an optional [-o] pair at the end. *)
Lemma append_flag (b : bool) (args : list string) (o : string) :
  (if b then append (append args ["-o"]) [o] else args) = List.app args (flag b o).
Proof.
  destruct b; unfold append, flag.
  - rewrite <- app_assoc. reflexivity.
  - rewrite app_nil_r. reflexivity.
Qed.

Lemma append_flag2 (b : bool) (args : list string) (o : string) :
  (if b then append args ["-o"; o] else args) = List.app args (flag b o).
Proof.
  destruct b; unfold append, flag.
  - reflexivity.
  - rewrite app_nil_r. reflexivity.
Qed.

Lemma append_default (b : bool) (args : list string) (x d : string) :
  (if b then append (append args ["-o"]) [x] else append (append args ["-o"]) [d])
  = List.app args ["-o"; if b then x else d].
Proof.
  destruct b; unfold append; rewrite <- app_assoc; reflexivity.
Qed.

Lemma append_default2 (b : bool) (args : list string) (x d : string) :
  (if b then append args ["-o"; x] else append args ["-o"; d])
  = List.app args ["-o"; if b then x else d].
Proof.
  destruct b; reflexivity.
Qed.

(** One step through the chain of [args = append(args, ...)]: the value bound
    by the outermost [let] is brought to the form [args ++ flag ...] before it
    is substituted. *)
Ltac let_step :=
  lazymatch goal with
  | |- first_call (let args := ?v in _) = _ =>
      try (let H := fresh "H" in
           eassert (H : v = _)
             by first [ apply append_flag | apply append_flag2
                      | apply append_default | apply append_default2 ];
           rewrite H; clear H)
  end;
  lazymatch goal with
  | |- first_call (let args := ?v in @?body args) = ?rhs =>
      change (first_call (body v) = rhs); cbv beta
  end.

(** C2, amended. For every encrypted image that [Create] accepts
    ([Encrypted = true] and format qcow2), the argument sequence is: [create],
    the secret object, [-f <format>], the key-secret reference; then the
    geometry options in the order backing file, compatibility level, cluster
    size, extended L2, lazy refcounts, preallocation (always present,
    [metadata] when unset), refcount bits; then the remaining encryption
    options in the order iteration time, IV generation hash, IV generation
    algorithm, cipher mode, cipher algorithm, cipher hash, cipher format
    (always present, [luks] when unset); then path and size as the last two
    arguments.  Only the key-secret reference precedes the geometry
    options. *)
Theorem Create_encrypted_args (i : Image) :
  Encrypted i = true ->
  Format i = ImageFormatQCOW2 ->
  first_call (Create i)
    = Some (List.concat
              [["create"; "--object"; "secret,id=sec0,data=" ++ Secret i;
                "-f"; Format i; "-o"; "encrypt.key-secret=sec0"];
               geometry_flags i;
               iter_time_flag i; ivgen_hash_flag i; ivgen_alg_flag i;
               cipher_mode_flag i; cipher_alg_flag i; cipher_hash_flag i;
               cipher_format_flag i;
               [Path i; FormatUint (Size i)]]).
Proof.
  intros HE HF. cbv beta delta [Create]. rewrite HE.
  rewrite (proj2 (String.eqb_eq _ _) HF).
  change (Bool.eqb true false) with false. change (negb true) with false.
  cbv iota.
  repeat let_step.
  cbn [bind CombinedOutput first_call]. f_equal.
  unfold append, geometry_flags, iter_time_flag, ivgen_hash_flag, ivgen_alg_flag,
    cipher_mode_flag, cipher_alg_flag, cipher_hash_flag, cipher_format_flag.
  cbn [List.concat].
  rewrite ?app_nil_r, <- ?app_assoc.
  destruct (0 <? String.length (Preallocation i))%nat,
           (0 <? String.length (CipherFormat i))%nat; reflexivity.
Qed.


Lemma Create_encrypted_args_witness :
  let i := mkImage "enc.qcow2" "qcow2" (5 * GiB) "secret1" "base.qcow2" true true
             "1.1" 64 1024 true "full" "aes-256" "xts" "" "sha256" 1000
             "plain64" "sha256" [] in
  first_call (Create i)
    = Some (List.concat
              [["create"; "--object"; "secret,id=sec0,data=" ++ Secret i;
                "-f"; Format i; "-o"; "encrypt.key-secret=sec0"];
               geometry_flags i;
               iter_time_flag i; ivgen_hash_flag i; ivgen_alg_flag i;
               cipher_mode_flag i; cipher_alg_flag i; cipher_hash_flag i;
               cipher_format_flag i;
               [Path i; FormatUint (Size i)]]).
Proof.
  apply (Create_encrypted_args
           (mkImage "enc.qcow2" "qcow2" (5 * GiB) "secret1" "base.qcow2" true true
              "1.1" 64 1024 true "full" "aes-256" "xts" "" "sha256" 1000
              "plain64" "sha256" [])).
  - reflexivity.
  - reflexivity.
Defined.

(** C2, as stated, fails: for the encrypted qcow2 image of the speed profile
    the encryption options other than the key-secret reference come after the
    geometry options (refcount bits precede the iteration time), and the IV
    generation hash precedes the IV generation algorithm; the sequence is not
    the one in the specified order. *)
Lemma Create_encrypted_order_counterexample :
  let i := OptimizeSpeed
             (fst (NewEncryptedImage "enc.qcow2" ImageFormatQCOW2 "secret1" (5 * GiB))) in
  let args :=
    ["create"; "--object"; "secret,id=sec0,data=secret1"; "-f"; "qcow2";
     "-o"; "encrypt.key-secret=sec0"; "-o"; "compat=1.1"; "-o";
     "cluster_size=1024K"; "-o"; "extended_l2=on"; "-o";
     "lazy_refcounts=on"; "-o"; "preallocation=full"; "-o";
     "refcount_bits=64"; "-o"; "encrypt.iter-time=1000"; "-o";
     "encrypt.ivgen-hash-alg=sha256"; "-o"; "encrypt.ivgen-alg=plain64";
     "-o"; "encrypt.cipher-mode=xts"; "-o";
     "encrypt.cipher-alg=aes-256"; "-o"; "encrypt.hash-alg=sha256";
     "-o"; "encrypt.format=luks"; "enc.qcow2"; "5368709120"] in
  Encrypted i = true
  /\ Format i = ImageFormatQCOW2
  /\ first_call (Create i) = Some args
  /\ encryption_before_geometry args = false
  /\ precedes "refcount_bits=64" "encrypt.iter-time=1000" args = true
  /\ precedes "encrypt.ivgen-hash-alg=sha256" "encrypt.ivgen-alg=plain64" args = true
  /\ encryption_before_geometry (Create_args_as_specified i) = true
  /\ first_call (Create i) <> Some (Create_args_as_specified i).
Proof.
  vm_compute. repeat split. discriminate.
Qed.

(** ** Inspection *)

Lemma appendSnapshot_contribution (acc : list Snapshot) (snap : snapshotInfo.t) :
  appendSnapshot acc snap = List.app acc (contribution snap).
Proof.
  unfold appendSnapshot, contribution, append.
  destruct (Atoi (snapshotInfo.ID snap)); cbn.
  - reflexivity.
  - symmetry. apply app_nil_r.
Qed.

Lemma fold_appendSnapshot (l : list snapshotInfo.t) (acc : list Snapshot) :
  fold_left appendSnapshot l acc = List.app acc (flat_map contribution l).
Proof.
  revert acc. induction l as [| snap l IH]; intros acc; cbn [fold_left flat_map].
  - symmetry. apply app_nil_r.
  - rewrite IH, appendSnapshot_contribution, <- app_assoc. reflexivity.
Qed.

Lemma member_int64_value (m : option Z) (z : Z) :
  member_int64 m = Some z -> z = member 0 m.
Proof.
  destruct m as [v |]; cbn.
  - destruct (fits_int64 v); congruence.
  - congruence.
Qed.

(** A decoded entry contributes a snapshot exactly when its [id] parses, and
    that snapshot records the entry. *)
Lemma Unmarshal_snapshotInfo_contribution (o : SnapshotObject.t) (snap : snapshotInfo.t) :
  Unmarshal_snapshotInfo o = Some snap ->
  if id_parses o
  then exists s, contribution snap = [s] /\ records o s
  else contribution snap = [].
Proof.
  unfold Unmarshal_snapshotInfo, id_parses, contribution, records.
  destruct (member_int64 (SnapshotObject.date_sec o)) as [ds |] eqn:E1; [| discriminate].
  destruct (member_int64 (SnapshotObject.date_nsec o)) as [dn |] eqn:E2; [| discriminate].
  destruct (member_int64 (SnapshotObject.vm_clock_sec o)) as [cs |] eqn:E3; [| discriminate].
  destruct (member_int64 (SnapshotObject.vm_clock_nsec o)) as [cn |] eqn:E4; [| discriminate].
  intros H. injection H as <-. cbn.
  apply member_int64_value in E1, E2, E3, E4. subst.
  destruct (Atoi (member "" (SnapshotObject.id o))) as [id |].
  - eexists. split; [reflexivity |]. cbn. repeat split.
  - reflexivity.
Qed.

Lemma Unmarshal_snapshots_records (l : list SnapshotObject.t) (ss : list snapshotInfo.t) :
  Unmarshal_snapshots l = Some ss ->
  Forall2 records (filter id_parses l) (flat_map contribution ss).
Proof.
  revert ss. induction l as [| o l IH]; intros ss H; cbn in H.
  - injection H as <-. constructor.
  - destruct (Unmarshal_snapshotInfo o) as [snap |] eqn:Eo; [| discriminate].
    destruct (Unmarshal_snapshots l) as [ss' |]; [| discriminate].
    injection H as <-. cbn [filter flat_map].
    pose proof (Unmarshal_snapshotInfo_contribution o snap Eo) as Hc.
    destruct (id_parses o).
    + destruct Hc as (s & -> & Hs). cbn. constructor; auto.
    + rewrite Hc. cbn. auto.
Qed.

(** A successful inspection, field by field. *)
Lemma retreiveInfos_success (i : Image) (r : CmdResult) (info : imgInfo.t) :
  failed r = false ->
  Unmarshal (out r) = Some info ->
  run [r] (retreiveInfos i)
    = Some (mkImage (Path i) (imgInfo.Format info) (imgInfo.Size info) (Secret i)
              (BackingFile i)
              (if String.eqb (Secret i) "" then imgInfo.Encrypted info else true)
              (LazyRefcounts i) (CompatLevel i) (RefcountBits i) (ClusterSizeKB i)
              (ExtendedL2 i) (Preallocation i) (CipherAlgorithm i) (CipherMode i)
              (CipherFormat i) (CipherHashAlg i) (EncryptIterTime i)
              (EncryptIvGenAlg i) (EncryptIvGenHashAlg i)
              (flat_map contribution (imgInfo.Snapshots info)),
            None).
Proof.
  intros Hf Hu. unfold retreiveInfos.
  cbn [bind CombinedOutput run]. rewrite Hf, Hu.
  rewrite fold_appendSnapshot.
  destruct i as [p f sz sec bf enc lr cl rb cs e2 pa ca cm cf ch it ia ih sn].
  cbn [Secret set_Format set_Size Path Format Size BackingFile Encrypted].
  destruct (String.eqb sec ""); reflexivity.
Qed.

Lemma Unmarshal_Document (doc : InfoObject.t) (info : imgInfo.t) :
  Unmarshal (Document doc) = Some info ->
  Unmarshal_snapshots (member [] (InfoObject.snapshots doc))
    = Some (imgInfo.Snapshots info)
  /\ imgInfo.Encrypted info = member false (InfoObject.encrypted doc).
Proof.
  unfold Unmarshal.
  destruct (Unmarshal_snapshots (member [] (InfoObject.snapshots doc))); [| discriminate].
  destruct (member_uint64 (InfoObject.virtual_size doc)); [| discriminate].
  intros H. injection H as <-. split; reflexivity.
Qed.

(** The setting of the two statements below: one run of [qemu-img info] that
    exits normally and prints a document the decoder accepts. *)
Section SuccessfulInspection.

Variable i : Image.
Variable r : CmdResult.
Variable doc : InfoObject.t.
Hypothesis tool_succeeded : failed r = false.
Hypothesis tool_printed : out r = Document doc.
Hypothesis decoder_accepts : Unmarshal (out r) <> None.

(** C3. When the tool's inspection output is a document the decoder accepts,
    [retreiveInfos] succeeds and: if the image's [Secret] is non-empty,
    [Encrypted] is true whatever the document reports, [encrypted: false]
    included; if [Secret] is empty, [Encrypted] is the reported value, and
    false when the document has no [encrypted] member. *)
Theorem retreiveInfos_Encrypted :
  exists i',
    run [r] (retreiveInfos i) = Some (i', None)
    /\ (Secret i <> "" -> Encrypted i' = true)
    /\ (Secret i = "" ->
        Encrypted i' = match InfoObject.encrypted doc with
                       | Some reported => reported
                       | None => false
                       end).
Proof.
  destruct (Unmarshal (out r)) as [info |] eqn:E; [| contradiction].
  rewrite (retreiveInfos_success i r info tool_succeeded E).
  eexists. split; [reflexivity |].
  rewrite tool_printed in E. apply Unmarshal_Document in E as [_ HE].
  cbn [Encrypted]. split; intros Hs.
  - destruct (String.eqb (Secret i) "") eqn:Es; [| reflexivity].
    apply String.eqb_eq in Es. contradiction.
  - rewrite Hs, HE. reflexivity.
Qed.

(** C5. When the tool's inspection output is a document the decoder accepts,
    [retreiveInfos] succeeds, without error, and the snapshot list it stores
    records, one for one and in the original order, exactly the entries of
    the document whose [id] parses as an integer; the other entries are
    dropped. *)
Theorem retreiveInfos_snapshots :
  exists i',
    run [r] (retreiveInfos i) = Some (i', None)
    /\ Forall2 records
         (filter id_parses (member [] (InfoObject.snapshots doc)))
         (snapshots i').
Proof.
  destruct (Unmarshal (out r)) as [info |] eqn:E; [| contradiction].
  rewrite (retreiveInfos_success i r info tool_succeeded E).
  eexists. split; [reflexivity |].
  rewrite tool_printed in E. apply Unmarshal_Document in E as [HS _].
  cbn [snapshots]. apply Unmarshal_snapshots_records. exact HS.
Qed.

End SuccessfulInspection.

(** ** Lookup of a snapshot by name *)

Lemma scanByName_first (name : string) (pre : list Snapshot) (s : Snapshot)
      (post : list Snapshot) (snap : Snapshot) :
  Name s = name ->
  (forall x, In x pre -> Name x <> name) ->
  scanByName name (List.app pre (s :: post)) snap = (s, true).
Proof.
  intros Hs Hpre. induction pre as [| x pre IH]; cbn.
  - rewrite (proj2 (String.eqb_eq _ _) Hs). reflexivity.
  - destruct (String.eqb (Name x) name) eqn:E.
    + apply String.eqb_eq in E. exfalso. apply (Hpre x); [left; reflexivity | exact E].
    + apply IH. intros y Hy. apply Hpre. right. exact Hy.
Qed.

Lemma scanByName_none (name : string) (snaps : list Snapshot) (snap : Snapshot) :
  (forall x, In x snaps -> Name x <> name) ->
  scanByName name snaps snap = (snap, false).
Proof.
  intros Hno. induction snaps as [| x snaps IH]; cbn.
  - reflexivity.
  - destruct (String.eqb (Name x) name) eqn:E.
    + apply String.eqb_eq in E. exfalso. apply (Hno x); [left; reflexivity | exact E].
    + apply IH. intros y Hy. apply Hno. right. exact Hy.
Qed.

(** After a successful [snapshot -c], the result of [CreateSnapshot] is that
    of the scan over the refreshed list. *)
Lemma CreateSnapshot_scan (i : Image) (name : string) (r1 r2 : CmdResult)
      (snaps : list Snapshot) :
  failed r1 = false ->
  run [r2] (Snapshots i) = Some (snaps, None) ->
  run [r1; r2] (CreateSnapshot i name)
    = Some (fst (scanByName name snaps Snapshot_zero),
            if snd (scanByName name snaps Snapshot_zero) then None
            else Some (Errorf "couldn't find newly created snapshot")).
Proof.
  intros Hf1 HS.
  assert (HB : forall f : list Snapshot * option error -> Proc (Snapshot * option error),
             run [r2] (bind (Snapshots i) f) = run [] (f (snaps, None))).
  { intros f. revert HS. unfold Snapshots, retreiveInfos.
    cbn [bind CombinedOutput run].
    destruct (failed r2); cbn [bind run]; [discriminate |].
    destruct (Unmarshal (out r2)); cbn [bind run]; [| discriminate].
    match goal with
    | |- context [if ?c then _ else _] => destruct c
    end; cbn [bind run]; intros H; injection H as <-; reflexivity. }
  unfold CreateSnapshot.
  destruct (Encrypted i); cbn [Bool.eqb bind CombinedOutput run];
    rewrite Hf1, HB;
    destruct (scanByName name snaps Snapshot_zero) as [snap [|]]; reflexivity.
Qed.

(** C9. After a successful [snapshot -c], when the refreshed list has an entry
    named [name], [CreateSnapshot] returns the first such entry in list order,
    however many entries share the name; when no entry has the name it
    reports the lookup failure, an error, together with the zero snapshot. *)
Theorem CreateSnapshot_first_match (i : Image) (name : string) (r1 r2 : CmdResult)
        (snaps : list Snapshot) :
  failed r1 = false ->
  run [r2] (Snapshots i) = Some (snaps, None) ->
  (forall pre s post,
      snaps = List.app pre (s :: post) ->
      Name s = name ->
      (forall x, In x pre -> Name x <> name) ->
      run [r1; r2] (CreateSnapshot i name) = Some (s, None))
  /\ ((forall x, In x snaps -> Name x <> name) ->
      run [r1; r2] (CreateSnapshot i name)
        = Some (Snapshot_zero,
                Some (Errorf "couldn't find newly created snapshot"))).
Proof.
  intros Hf1 HS.
  rewrite (CreateSnapshot_scan i name r1 r2 snaps Hf1 HS).
  split.
  - intros pre s post -> Hs Hpre.
    rewrite (scanByName_first name pre s post Snapshot_zero Hs Hpre). reflexivity.
  - intros Hno. rewrite (scanByName_none name snaps Snapshot_zero Hno). reflexivity.
Qed.

Lemma retreiveInfos_Encrypted_witness :
  (exists i',
      run [succeeded (Document sample_document)] (retreiveInfos opened_with_secret)
        = Some (i', None)
      /\ Encrypted i' = true)
  /\ (exists i',
         run [succeeded (Document sample_document)] (retreiveInfos opened_plain)
           = Some (i', None)
         /\ Encrypted i' = false)
  /\ (exists i',
         run [succeeded (Document bare_document)] (retreiveInfos opened_plain)
           = Some (i', None)
         /\ Encrypted i' = false).
Proof.
  repeat split.
  - destruct (retreiveInfos_Encrypted opened_with_secret
                (succeeded (Document sample_document)) sample_document)
      as (i' & Hrun & Hsecret & _);
      [reflexivity | reflexivity | vm_compute; discriminate |].
    exists i'. split; [exact Hrun |]. apply Hsecret. vm_compute. discriminate.
  - destruct (retreiveInfos_Encrypted opened_plain
                (succeeded (Document sample_document)) sample_document)
      as (i' & Hrun & _ & Hreported);
      [reflexivity | reflexivity | vm_compute; discriminate |].
    exists i'. split; [exact Hrun |]. apply Hreported. reflexivity.
  - destruct (retreiveInfos_Encrypted opened_plain
                (succeeded (Document bare_document)) bare_document)
      as (i' & Hrun & _ & Hreported);
      [reflexivity | reflexivity | vm_compute; discriminate |].
    exists i'. split; [exact Hrun |]. apply Hreported. reflexivity.
Defined.

Lemma retreiveInfos_snapshots_witness :
  exists i',
    run [succeeded (Document sample_document)] (retreiveInfos opened_plain)
      = Some (i', None)
    /\ Forall2 records
         (filter id_parses (member [] (InfoObject.snapshots sample_document)))
         (snapshots i').
Proof.
  apply (retreiveInfos_snapshots opened_plain
           (succeeded (Document sample_document)) sample_document).
  - reflexivity.
  - reflexivity.
  - vm_compute. discriminate.
Defined.

(** The same run, evaluated: the entry with id [x2] is gone, the two others
    are kept in order. *)
Example retreiveInfos_sample :
  option_map (fun res => (snapshots (fst res), snd res))
    (run [succeeded (Document sample_document)] (retreiveInfos opened_plain))
  = Some ([mkSnapshot 1 "base" (Unix 1700000000 5) (Unix 12 7);
           mkSnapshot 3 "nightly" (Unix 1700000200 9) (Unix 14 1)],
          None).
Proof. vm_compute. reflexivity. Qed.

Lemma CreateSnapshot_first_match_witness :
  run [succeeded (Text ""); succeeded (Document twin_document)]
      (CreateSnapshot opened_plain "nightly")
    = Some (mkSnapshot 2 "nightly" (Unix 1700000100 0) (Unix 13 0), None)
  /\ run [succeeded (Text ""); succeeded (Document twin_document)]
         (CreateSnapshot opened_plain "weekly")
    = Some (Snapshot_zero, Some (Errorf "couldn't find newly created snapshot")).
Proof.
  split.
  - refine (proj1 (CreateSnapshot_first_match opened_plain "nightly"
                     (succeeded (Text "")) (succeeded (Document twin_document))
                     [mkSnapshot 1 "base" (Unix 1700000000 5) (Unix 12 7);
                      mkSnapshot 2 "nightly" (Unix 1700000100 0) (Unix 13 0);
                      mkSnapshot 3 "nightly" (Unix 1700000200 9) (Unix 14 1)]
                     _ _)
                  [mkSnapshot 1 "base" (Unix 1700000000 5) (Unix 12 7)]
                  (mkSnapshot 2 "nightly" (Unix 1700000100 0) (Unix 13 0))
                  [mkSnapshot 3 "nightly" (Unix 1700000200 9) (Unix 14 1)]
                  _ _ _).
    + reflexivity.
    + vm_compute. reflexivity.
    + reflexivity.
    + reflexivity.
    + intros x [<- | []]. cbn. discriminate.
  - refine (proj2 (CreateSnapshot_first_match opened_plain "weekly"
                     (succeeded (Text "")) (succeeded (Document twin_document))
                     [mkSnapshot 1 "base" (Unix 1700000000 5) (Unix 12 7);
                      mkSnapshot 2 "nightly" (Unix 1700000100 0) (Unix 13 0);
                      mkSnapshot 3 "nightly" (Unix 1700000200 9) (Unix 14 1)]
                     _ _) _).
    + reflexivity.
    + vm_compute. reflexivity.
    + intros x [<- | [<- | [<- | []]]]; cbn; discriminate.
Defined.

(** * Further properties *)

(** ** Profiles *)

(** X1. The speed profile assigns every field the size profile assigns, so
    applied after the size profile it gives the speed profile alone; each
    profile applied twice is the profile applied once. *)
Theorem OptimizeSpeed_absorbs_OptimizeSize (d : Image) :
  OptimizeSpeed (OptimizeSize d) = OptimizeSpeed d
  /\ OptimizeSpeed (OptimizeSpeed d) = OptimizeSpeed d
  /\ OptimizeSize (OptimizeSize d) = OptimizeSize d.
Proof.
  destruct d as [p f sz sec bf enc lr cl rb cs e2 pa ca cm cf ch it ia ih sn].
  destruct enc; vm_compute; repeat split.
Qed.

(** X2. Neither profile touches the identity of the image (path, format,
    size, secret, backing file, encryption flag, snapshot list), and the
    cipher suite is assigned only when the image is encrypted: an image that
    is not encrypted keeps its cipher fields, an encrypted one gets AES-256,
    SHA-256, LUKS, XTS, plain64 with an iteration time of 1000 ms (speed) or
    2000 ms (size). *)
Theorem profiles_frame (d : Image) (profile : Image -> Image) :
  profile = OptimizeSpeed \/ profile = OptimizeSize ->
  Path (profile d) = Path d
  /\ Format (profile d) = Format d
  /\ Size (profile d) = Size d
  /\ Secret (profile d) = Secret d
  /\ BackingFile (profile d) = BackingFile d
  /\ Encrypted (profile d) = Encrypted d
  /\ snapshots (profile d) = snapshots d
  /\ CipherAlgorithm (profile d)
     = (if Encrypted d then CipherAlgorithmAES256 else CipherAlgorithm d)
  /\ CipherHashAlg (profile d)
     = (if Encrypted d then CipherHashAlgorithmSHA256 else CipherHashAlg d)
  /\ CipherFormat (profile d)
     = (if Encrypted d then CipherFormatLUKS else CipherFormat d)
  /\ CipherMode (profile d)
     = (if Encrypted d then CipherModeXTS else CipherMode d)
  /\ EncryptIvGenAlg (profile d)
     = (if Encrypted d then IVGenAlgPlain64 else EncryptIvGenAlg d)
  /\ EncryptIvGenHashAlg (profile d)
     = (if Encrypted d then IVGenHashAlgorithmSHA256 else EncryptIvGenHashAlg d)
  /\ EncryptIterTime (OptimizeSpeed d)
     = (if Encrypted d then 1000 else EncryptIterTime d)
  /\ EncryptIterTime (OptimizeSize d)
     = (if Encrypted d then 2000 else EncryptIterTime d).
Proof.
  destruct d as [p f sz sec bf enc lr cl rb cs e2 pa ca cm cf ch it ia ih sn].
  intros [-> | ->]; destruct enc; vm_compute; repeat split.
Qed.

Lemma profiles_frame_witness :
  let d := fst (NewEncryptedImage "enc.qcow2" ImageFormatQCOW2 "secret1" (5 * GiB)) in
  Path (OptimizeSize d) = Path d
  /\ Format (OptimizeSize d) = Format d
  /\ Size (OptimizeSize d) = Size d
  /\ Secret (OptimizeSize d) = Secret d
  /\ BackingFile (OptimizeSize d) = BackingFile d
  /\ Encrypted (OptimizeSize d) = Encrypted d
  /\ snapshots (OptimizeSize d) = snapshots d
  /\ CipherAlgorithm (OptimizeSize d)
     = (if Encrypted d then CipherAlgorithmAES256 else CipherAlgorithm d)
  /\ CipherHashAlg (OptimizeSize d)
     = (if Encrypted d then CipherHashAlgorithmSHA256 else CipherHashAlg d)
  /\ CipherFormat (OptimizeSize d)
     = (if Encrypted d then CipherFormatLUKS else CipherFormat d)
  /\ CipherMode (OptimizeSize d)
     = (if Encrypted d then CipherModeXTS else CipherMode d)
  /\ EncryptIvGenAlg (OptimizeSize d)
     = (if Encrypted d then IVGenAlgPlain64 else EncryptIvGenAlg d)
  /\ EncryptIvGenHashAlg (OptimizeSize d)
     = (if Encrypted d then IVGenHashAlgorithmSHA256 else EncryptIvGenHashAlg d)
  /\ EncryptIterTime (OptimizeSpeed d)
     = (if Encrypted d then 1000 else EncryptIterTime d)
  /\ EncryptIterTime (OptimizeSize d)
     = (if Encrypted d then 2000 else EncryptIterTime d).
Proof.
  apply (profiles_frame
           (fst (NewEncryptedImage "enc.qcow2" ImageFormatQCOW2 "secret1" (5 * GiB)))
           OptimizeSize).
  right. reflexivity.
Defined.

(** ** Creation, both branches *)

(** The chain of appends of [Create], one [let] at a time, in a goal
    [(let args := ... in ...) = rhs]. *)
Ltac let_step_eq :=
  lazymatch goal with
  | |- (let args := ?v in _) = _ =>
      try (let H := fresh "H" in
           eassert (H : v = _)
             by first [ apply append_flag | apply append_flag2
                      | apply append_default | apply append_default2 ];
           rewrite H; clear H)
  end;
  lazymatch goal with
  | |- (let args := ?v in @?body args) = ?rhs =>
      change (body v = rhs); cbv beta
  end.

Lemma Create_plain_eq (i : Image) :
  Encrypted i = false ->
  Create i = Exec (plain_create_args i) create_reply.
Proof.
  intros HE. cbv beta delta [Create]. rewrite HE.
  change (Bool.eqb false false) with true. cbv iota.
  repeat let_step_eq.
  cbn [bind CombinedOutput]. change (fun r : CmdResult => create_reply r) with create_reply.
  unfold create_reply at 1. f_equal.
  unfold append, plain_create_args, geometry_flags.
  cbn [List.concat].
  rewrite ?app_nil_r, <- ?app_assoc.
  destruct (0 <? String.length (Preallocation i))%nat; reflexivity.
Qed.

Lemma Create_encrypted_eq (i : Image) :
  Encrypted i = true ->
  Format i = ImageFormatQCOW2 ->
  Create i = Exec (encrypted_create_args i) create_reply.
Proof.
  intros HE HF. cbv beta delta [Create]. rewrite HE.
  rewrite (proj2 (String.eqb_eq _ _) HF).
  change (Bool.eqb true false) with false. change (negb true) with false.
  cbv iota.
  repeat let_step_eq.
  cbn [bind CombinedOutput].
  unfold create_reply at 1. f_equal.
  unfold append, encrypted_create_args, geometry_flags, iter_time_flag,
    ivgen_hash_flag, ivgen_alg_flag, cipher_mode_flag, cipher_alg_flag,
    cipher_hash_flag, cipher_format_flag.
  cbn [List.concat].
  rewrite ?app_nil_r, <- ?app_assoc.
  destruct (0 <? String.length (Preallocation i))%nat,
           (0 <? String.length (CipherFormat i))%nat; reflexivity.
Qed.

Lemma Create_refused_eq (i : Image) :
  Encrypted i = true ->
  Format i <> ImageFormatQCOW2 ->
  Create i = Ret (Some (Errorf "encrypted volumes must be qcow2 format")).
Proof.
  intros HE HF. cbv beta delta [Create]. rewrite HE.
  change (Bool.eqb true false) with false. cbv iota.
  destruct (String.eqb (Format i) ImageFormatQCOW2) eqn:E.
  - apply String.eqb_eq in E. contradiction.
  - reflexivity.
Qed.

(** X3. For every image that is not encrypted, [Create] invokes the tool with
    [create -f <format>], the geometry options in the order backing file,
    compatibility level, cluster size, extended L2, lazy refcounts,
    preallocation, refcount bits, then path and size.  The secret and the
    cipher fields play no part, whatever they hold. *)
Theorem Create_plain_args (i : Image) :
  Encrypted i = false ->
  first_call (Create i)
    = Some (List.concat
              [["create"; "-f"; Format i];
               geometry_flags i;
               [Path i; FormatUint (Size i)]]).
Proof.
  intros HE. rewrite (Create_plain_eq i HE). reflexivity.
Qed.

Lemma Create_plain_args_witness :
  let i := mkImage "disk.qcow2" "qcow2" (5 * GiB) "unused" "base.qcow2" false true
             "1.1" 32 128 true "" "aes-256" "xts" "luks" "sha256" 1000
             "plain64" "sha256" [] in
  first_call (Create i)
    = Some (List.concat
              [["create"; "-f"; Format i];
               geometry_flags i;
               [Path i; FormatUint (Size i)]]).
Proof.
  apply (Create_plain_args
           (mkImage "disk.qcow2" "qcow2" (5 * GiB) "unused" "base.qcow2" false true
              "1.1" 32 128 true "" "aes-256" "xts" "luks" "sha256" 1000
              "plain64" "sha256" [])).
  reflexivity.
Defined.

(** X4. [Create] returns an error in exactly two cases: the image is
    encrypted with a format other than qcow2 (whatever the tool would
    answer), or the tool's run fails, in which case the error carries the
    tool's output; otherwise it returns nil. *)
Theorem Create_result (i : Image) (r : CmdResult) :
  run [r] (Create i)
    = Some (if Encrypted i && negb (String.eqb (Format i) ImageFormatQCOW2)
            then Some (Errorf "encrypted volumes must be qcow2 format")
            else if failed r then Some (ToolOutputError "create" (out r))
                 else None).
Proof.
  destruct (Encrypted i) eqn:HE; cbn [andb].
  - destruct (String.eqb (Format i) ImageFormatQCOW2) eqn:HF; cbn [negb].
    + apply String.eqb_eq in HF. rewrite (Create_encrypted_eq i HE HF).
      cbn [run]. unfold create_reply. destruct (failed r); reflexivity.
    + apply String.eqb_neq in HF. rewrite (Create_refused_eq i HE HF). reflexivity.
  - rewrite (Create_plain_eq i HE).
    cbn [run]. unfold create_reply. destruct (failed r); reflexivity.
Qed.

(** X5. Whenever [Create] invokes the tool, the argument sequence starts with
    [create] and ends with the path and then the size in decimal. *)
Theorem Create_positional (i : Image) (args : list string) :
  first_call (Create i) = Some args ->
  exists options,
    args = List.app ("create" :: options) [Path i; FormatUint (Size i)].
Proof.
  destruct (Encrypted i) eqn:HE.
  - destruct (String.eqb (Format i) ImageFormatQCOW2) eqn:HF.
    + apply String.eqb_eq in HF. rewrite (Create_encrypted_eq i HE HF).
      cbn [first_call]. intros H. injection H as <-.
      unfold encrypted_create_args. cbn [List.concat].
      rewrite app_nil_r.
      exists (List.app ["--object"; "secret,id=sec0,data=" ++ Secret i; "-f"; Format i;
                        "-o"; "encrypt.key-secret=sec0"]
                (List.concat [geometry_flags i; iter_time_flag i; ivgen_hash_flag i;
                              ivgen_alg_flag i; cipher_mode_flag i; cipher_alg_flag i;
                              cipher_hash_flag i; cipher_format_flag i])).
      cbn [List.concat List.app]. rewrite app_nil_r, <- ?app_assoc. reflexivity.
    + apply String.eqb_neq in HF. rewrite (Create_refused_eq i HE HF).
      cbn [first_call]. discriminate.
  - rewrite (Create_plain_eq i HE).
    cbn [first_call]. intros H. injection H as <-.
    unfold plain_create_args. cbn [List.concat]. rewrite app_nil_r.
    exists (List.app ["-f"; Format i] (geometry_flags i)).
    cbn [List.app]. rewrite <- ?app_assoc. reflexivity.
Qed.

Lemma Create_positional_witness :
  exists options,
    ["create"; "-f"; "qcow2"; "-o"; "preallocation=metadata"; "test.qcow2";
     "10737418240"]
    = List.app ("create" :: options) ["test.qcow2"; "10737418240"].
Proof.
  apply (Create_positional
           (mkImage "test.qcow2" "qcow2" (10 * GiB) "" "" false false "" 16 64 false
              "" "" "" "" "" 0 "" "" [])).
  reflexivity.
Defined.

Lemma NewEncryptedImage_fields (path format secret : string) (size : N) :
  NewEncryptedImage path format secret size
    = (mkImage path format size secret "" true false "" 16 64 false
         "" "" "" "" "" 0 "" "" [],
       if negb (String.eqb format ImageFormatQCOW2)
       then Some (Errorf "encrypted volumes must be of the type 'ImageFormatQCOW2'")
       else None).
Proof.
  unfold NewEncryptedImage.
  destruct (negb (String.eqb format ImageFormatQCOW2)); vm_compute; reflexivity.
Qed.

(** X6. The constructor and [Create] draw the same line: [NewEncryptedImage]
    returns a nil error exactly when the format is qcow2, and exactly then
    [Create] on the descriptor it returns goes on to invoke the tool. *)
Theorem NewEncryptedImage_Create_agree (path format secret : string) (size : N) :
  (snd (NewEncryptedImage path format secret size) = None
   <-> format = ImageFormatQCOW2)
  /\ (first_call (Create (fst (NewEncryptedImage path format secret size))) <> None
      <-> format = ImageFormatQCOW2).
Proof.
  rewrite NewEncryptedImage_fields. cbn [fst snd].
  set (img := mkImage path format size secret "" true false "" 16 64 false
                "" "" "" "" "" 0 "" "" []).
  assert (HE : Encrypted img = true) by reflexivity.
  assert (HFmt : Format img = format) by reflexivity.
  destruct (String.eqb format ImageFormatQCOW2) eqn:E; cbn [negb].
  - apply String.eqb_eq in E. split; split; intros _; try exact E; try reflexivity.
    rewrite <- HFmt in E. rewrite (Create_encrypted_eq img HE E).
    cbn [first_call]. discriminate.
  - apply String.eqb_neq in E. split; split; intros H.
    + discriminate H.
    + contradiction.
    + rewrite <- HFmt in E. rewrite (Create_refused_eq img HE E) in H.
      cbn [first_call] in H. contradiction.
    + contradiction.
Qed.

(** X7. For every path, secret and size, [Create] on the descriptor built by
    [NewEncryptedImage] for qcow2 invokes the tool with the secret object,
    the key-secret reference, [preallocation=metadata], [encrypt.format=luks]
    and then path and size: thirteen arguments, no other option. *)
Theorem Create_NewEncryptedImage_args (path secret : string) (size : N) :
  first_call (Create (fst (NewEncryptedImage path ImageFormatQCOW2 secret size)))
    = Some ["create"; "--object"; "secret,id=sec0,data=" ++ secret; "-f"; "qcow2";
            "-o"; "encrypt.key-secret=sec0"; "-o"; "preallocation=metadata";
            "-o"; "encrypt.format=luks"; path; FormatUint size].
Proof.
  rewrite NewEncryptedImage_qcow2_fields. vm_compute. reflexivity.
Qed.

(** X8. What a profile changes in the invocation of [Create], for every path,
    format, secret and size: after the speed profile the options are
    [compat=1.1], [cluster_size=1024K], [extended_l2=on],
    [lazy_refcounts=on], [preallocation=full], [refcount_bits=64]; after the
    size profile they are [extended_l2=on] and [preallocation=metadata]; an
    encrypted image gets in addition the full cipher suite, with an iteration
    time of 1000 or 2000. *)
Theorem Create_after_profile (path format secret : string) (size : N) :
  first_call (Create (OptimizeSpeed (NewImage path format size)))
    = Some ["create"; "-f"; format; "-o"; "compat=1.1"; "-o"; "cluster_size=1024K";
            "-o"; "extended_l2=on"; "-o"; "lazy_refcounts=on";
            "-o"; "preallocation=full"; "-o"; "refcount_bits=64";
            path; FormatUint size]
  /\ first_call (Create (OptimizeSize (NewImage path format size)))
    = Some ["create"; "-f"; format; "-o"; "extended_l2=on";
            "-o"; "preallocation=metadata"; path; FormatUint size]
  /\ first_call (Create (OptimizeSpeed
                           (fst (NewEncryptedImage path ImageFormatQCOW2 secret size))))
    = Some ["create"; "--object"; "secret,id=sec0,data=" ++ secret; "-f"; "qcow2";
            "-o"; "encrypt.key-secret=sec0"; "-o"; "compat=1.1";
            "-o"; "cluster_size=1024K"; "-o"; "extended_l2=on";
            "-o"; "lazy_refcounts=on"; "-o"; "preallocation=full";
            "-o"; "refcount_bits=64"; "-o"; "encrypt.iter-time=1000";
            "-o"; "encrypt.ivgen-hash-alg=sha256"; "-o"; "encrypt.ivgen-alg=plain64";
            "-o"; "encrypt.cipher-mode=xts"; "-o"; "encrypt.cipher-alg=aes-256";
            "-o"; "encrypt.hash-alg=sha256"; "-o"; "encrypt.format=luks";
            path; FormatUint size]
  /\ first_call (Create (OptimizeSize
                           (fst (NewEncryptedImage path ImageFormatQCOW2 secret size))))
    = Some ["create"; "--object"; "secret,id=sec0,data=" ++ secret; "-f"; "qcow2";
            "-o"; "encrypt.key-secret=sec0"; "-o"; "extended_l2=on";
            "-o"; "preallocation=metadata"; "-o"; "encrypt.iter-time=2000";
            "-o"; "encrypt.ivgen-hash-alg=sha256"; "-o"; "encrypt.ivgen-alg=plain64";
            "-o"; "encrypt.cipher-mode=xts"; "-o"; "encrypt.cipher-alg=aes-256";
            "-o"; "encrypt.hash-alg=sha256"; "-o"; "encrypt.format=luks";
            path; FormatUint size].
Proof.
  rewrite NewEncryptedImage_qcow2_fields, NewImage_fields.
  vm_compute. repeat split.
Qed.

(** ** Inspection, its failures and its frame *)

(** The three ways one run of [retreiveInfos] can end. *)
Lemma retreiveInfos_cases (i : Image) (r : CmdResult) :
  (failed r = true
   /\ run [r] (retreiveInfos i) = Some (i, Some (ToolOutputError "info" (out r))))
  \/ (failed r = false /\ Unmarshal (out r) = None
      /\ run [r] (retreiveInfos i)
         = Some (i, Some (Errorf "'qemu-img info' invalid json output")))
  \/ (failed r = false
      /\ exists info i', Unmarshal (out r) = Some info
                         /\ run [r] (retreiveInfos i) = Some (i', None)).
Proof.
  destruct (failed r) eqn:Hf.
  - left. split; [reflexivity |].
    unfold retreiveInfos. cbn [bind CombinedOutput run]. rewrite Hf. reflexivity.
  - right. destruct (Unmarshal (out r)) as [info |] eqn:Hu.
    + right. split; [reflexivity |]. exists info. eexists. split; [reflexivity |].
      apply (retreiveInfos_success i r info Hf Hu).
    + left. split; [reflexivity |]. split; [reflexivity |].
      unfold retreiveInfos. cbn [bind CombinedOutput run]. rewrite Hf, Hu. reflexivity.
Qed.

(** Sequencing after [retreiveInfos]: it consumes exactly one result. *)
Lemma run_retreiveInfos_bind {B : Type} (i : Image) (f : Image * option error -> Proc B)
      (r : CmdResult) (script : list CmdResult) :
  exists res,
    run [r] (retreiveInfos i) = Some res
    /\ run (r :: script) (bind (retreiveInfos i) f) = run script (f res)
    /\ calls (r :: script) (bind (retreiveInfos i) f)
       = info_args i :: calls script (f res).
Proof.
  unfold retreiveInfos, info_args. cbn [bind CombinedOutput run calls].
  destruct (failed r).
  - eexists. repeat split.
  - destruct (Unmarshal (out r)); eexists; repeat split.
Qed.

(** X9. Whenever [retreiveInfos] returns an error, the descriptor is exactly
    as it was, its old snapshot list included, and the error is one of two:
    the tool's run failed (the error carries its output, even if that output
    is a well-formed report), or the run succeeded and the decoder rejected
    the output. *)
Theorem retreiveInfos_error_unchanged (i i' : Image) (r : CmdResult) (e : error) :
  run [r] (retreiveInfos i) = Some (i', Some e) ->
  i' = i
  /\ ((failed r = true /\ e = ToolOutputError "info" (out r))
      \/ (failed r = false /\ Unmarshal (out r) = None
          /\ e = Errorf "'qemu-img info' invalid json output")).
Proof.
  intros H.
  destruct (retreiveInfos_cases i r) as [[Hf Hr] | [(Hf & Hu & Hr) | (Hf & info & j & Hu & Hr)]];
    rewrite Hr in H.
  - injection H as <- <-. split; [reflexivity |]. left. split; [exact Hf | reflexivity].
  - injection H as <- <-. split; [reflexivity |]. right. repeat split; assumption.
  - discriminate H.
Qed.

Lemma retreiveInfos_error_unchanged_witness :
  let i := set_snapshots [mkSnapshot 7 "old" TimeZero TimeZero] opened_plain in
  let r := mkCmdResult (Document sample_document) true in
  i = i
  /\ ((failed r = true /\ ToolOutputError "info" (out r) = ToolOutputError "info" (out r))
      \/ (failed r = false /\ Unmarshal (out r) = None
          /\ ToolOutputError "info" (out r)
             = Errorf "'qemu-img info' invalid json output")).
Proof.
  apply (retreiveInfos_error_unchanged
           (set_snapshots [mkSnapshot 7 "old" TimeZero TimeZero] opened_plain)
           (set_snapshots [mkSnapshot 7 "old" TimeZero TimeZero] opened_plain)
           (mkCmdResult (Document sample_document) true)
           (ToolOutputError "info" (Document sample_document))).
  vm_compute. reflexivity.
Defined.

(** X10. A successful [retreiveInfos] replaces the format, the size, the
    encryption flag and the snapshot list, and nothing else: path, secret,
    backing file, geometry and cipher fields are those of the receiver.  The
    snapshot list the receiver held before plays no part in the result. *)
Theorem retreiveInfos_success_frame (i i' : Image) (r : CmdResult) :
  run [r] (retreiveInfos i) = Some (i', None) ->
  i' = mkImage (Path i) (Format i') (Size i') (Secret i) (BackingFile i)
         (Encrypted i') (LazyRefcounts i) (CompatLevel i) (RefcountBits i)
         (ClusterSizeKB i) (ExtendedL2 i) (Preallocation i) (CipherAlgorithm i)
         (CipherMode i) (CipherFormat i) (CipherHashAlg i) (EncryptIterTime i)
         (EncryptIvGenAlg i) (EncryptIvGenHashAlg i) (snapshots i')
  /\ forall stale, run [r] (retreiveInfos (set_snapshots stale i)) = Some (i', None).
Proof.
  intros H.
  destruct (retreiveInfos_cases i r) as [[Hf Hr] | [(Hf & Hu & Hr) | (Hf & info & j & Hu & Hr)]];
    rewrite Hr in H; try discriminate H.
  injection H as ->.
  rewrite (retreiveInfos_success i r info Hf Hu) in Hr. injection Hr as <-.
  split; [reflexivity |].
  intros stale. rewrite (retreiveInfos_success _ r info Hf Hu).
  destruct i; reflexivity.
Qed.

Lemma retreiveInfos_success_frame_witness :
  let i := opened_with_secret in
  let r := succeeded (Document sample_document) in
  exists i',
    run [r] (retreiveInfos i) = Some (i', None)
    /\ i' = mkImage (Path i) (Format i') (Size i') (Secret i) (BackingFile i)
              (Encrypted i') (LazyRefcounts i) (CompatLevel i) (RefcountBits i)
              (ClusterSizeKB i) (ExtendedL2 i) (Preallocation i) (CipherAlgorithm i)
              (CipherMode i) (CipherFormat i) (CipherHashAlg i) (EncryptIterTime i)
              (EncryptIvGenAlg i) (EncryptIvGenHashAlg i) (snapshots i')
    /\ forall stale, run [r] (retreiveInfos (set_snapshots stale i)) = Some (i', None).
Proof.
  eexists. split; [vm_compute; reflexivity |].
  apply (retreiveInfos_success_frame opened_with_secret).
  vm_compute. reflexivity.
Defined.

(** X11. Inspecting twice with the same answer from the tool is inspecting
    once: the second [retreiveInfos], on the descriptor the first returned,
    returns the same descriptor and the same error. *)
Theorem retreiveInfos_idempotent (i : Image) (r : CmdResult) :
  run [r; r] (res <- retreiveInfos i ;; retreiveInfos (fst res))
    = run [r] (retreiveInfos i).
Proof.
  destruct (run_retreiveInfos_bind i (fun res => retreiveInfos (fst res)) r [r])
    as (res & Hres & Hrun & _).
  rewrite Hrun, Hres.
  destruct (retreiveInfos_cases i r) as [[Hf Hr] | [(Hf & Hu & Hr) | (Hf & info & j & Hu & Hr)]];
    rewrite Hr in Hres; injection Hres as <-; cbn [fst].
  - exact Hr.
  - exact Hr.
  - rewrite (retreiveInfos_success i r info Hf Hu) in Hr. injection Hr as <-.
    rewrite (retreiveInfos_success _ r info Hf Hu). reflexivity.
Qed.

(** X12. [Snapshots] makes one invocation, [info --output=json <path>].  When
    the tool fails or its output is rejected, it returns the nil list with
    that error; when the output is an accepted document, it returns, without
    error, the snapshots recording the entries whose [id] parses, one for one
    and in order. *)
Theorem Snapshots_result (i : Image) (r : CmdResult) :
  first_call (Snapshots i) = Some ["info"; "--output=json"; Path i]
  /\ (forall e i',
        run [r] (retreiveInfos i) = Some (i', Some e) ->
        run [r] (Snapshots i) = Some ([], Some e))
  /\ (forall doc,
        failed r = false ->
        out r = Document doc ->
        Unmarshal (out r) <> None ->
        exists snaps,
          run [r] (Snapshots i) = Some (snaps, None)
          /\ Forall2 records
               (filter id_parses (member [] (InfoObject.snapshots doc))) snaps).
Proof.
  split; [reflexivity |].
  unfold Snapshots.
  match goal with
  | |- context [bind (retreiveInfos i) ?f] =>
      destruct (run_retreiveInfos_bind i f r []) as (res & Hres & Hrun & _)
  end.
  split.
  - intros e i' H. rewrite Hrun. rewrite H in Hres. injection Hres as <-. reflexivity.
  - intros doc Hf Ho Hu.
    destruct (Unmarshal (out r)) as [info |] eqn:E; [| contradiction].
    rewrite (retreiveInfos_success i r info Hf E) in Hres. injection Hres as <-.
    rewrite Ho in E. apply Unmarshal_Document in E as [HS _].
    apply Unmarshal_snapshots_records in HS.
    cbn [snapshots] in Hrun.
    destruct (flat_map contribution (imgInfo.Snapshots info)) as [| s ss] eqn:El;
      cbn [List.length Nat.eqb run] in Hrun.
    + exists []. split; [exact Hrun | exact HS].
    + exists (s :: ss). split; [exact Hrun | exact HS].
Qed.

Lemma Snapshots_result_witness :
  first_call (Snapshots opened_plain) = Some ["info"; "--output=json"; "disk.qcow2"]
  /\ run [mkCmdResult (Text "qemu-img: no such file") true] (Snapshots opened_plain)
     = Some ([], Some (ToolOutputError "info" (Text "qemu-img: no such file")))
  /\ exists snaps,
       run [succeeded (Document sample_document)] (Snapshots opened_plain)
         = Some (snaps, None)
       /\ Forall2 records
            (filter id_parses (member [] (InfoObject.snapshots sample_document)))
            snaps.
Proof.
  split; [exact (proj1 (Snapshots_result opened_plain (succeeded (Text "")))) |].
  split.
  - apply (proj1 (proj2 (Snapshots_result opened_plain
                           (mkCmdResult (Text "qemu-img: no such file") true)))
             _ opened_plain).
    vm_compute. reflexivity.
  - apply (proj2 (proj2 (Snapshots_result opened_plain
                           (succeeded (Document sample_document))))
             sample_document).
    + reflexivity.
    + reflexivity.
    + vm_compute. discriminate.
Defined.

(** ** Opening an image *)

(** X13. When [os.Stat] says the path does not exist, [OpenImage] and
    [OpenEncryptedImage] return that error at once, with the zero descriptor
    (not even the path is recorded) and without invoking the tool. *)
Theorem Open_missing_file (path secret : string) (st : option PathError)
        (script : list CmdResult) :
  IsNotExist st = true ->
  statName (OpenImage path) = path
  /\ statName (OpenEncryptedImage path secret) = path
  /\ (exists e, st = Some e
        /\ runFile st script (OpenImage path) = Some (Image_zero, Some (FromStat e))
        /\ runFile st script (OpenEncryptedImage path secret)
           = Some (Image_zero, Some (FromStat e)))
  /\ callsFile st script (OpenImage path) = []
  /\ callsFile st script (OpenEncryptedImage path secret) = [].
Proof.
  intros Hst. destruct st as [e |]; [| discriminate Hst].
  unfold OpenImage, OpenEncryptedImage. cbn [statName runFile callsFile].
  rewrite Hst. cbn [run calls option_map].
  split; [reflexivity |]. split; [reflexivity |].
  split; [exists e; repeat split |]. split; reflexivity.
Qed.

Lemma Open_missing_file_witness :
  let st := Some (mkPathError "gone.qcow2" true) in
  let script := [succeeded (Document sample_document)] in
  statName (OpenImage "gone.qcow2") = "gone.qcow2"
  /\ statName (OpenEncryptedImage "gone.qcow2" "secret1") = "gone.qcow2"
  /\ (exists e, st = Some e
        /\ runFile st script (OpenImage "gone.qcow2")
           = Some (Image_zero, Some (FromStat e))
        /\ runFile st script (OpenEncryptedImage "gone.qcow2" "secret1")
           = Some (Image_zero, Some (FromStat e)))
  /\ callsFile st script (OpenImage "gone.qcow2") = []
  /\ callsFile st script (OpenEncryptedImage "gone.qcow2" "secret1") = [].
Proof.
  apply (Open_missing_file "gone.qcow2" "secret1"
           (Some (mkPathError "gone.qcow2" true))
           [succeeded (Document sample_document)]).
  reflexivity.
Defined.

(** What [OpenImage] and [OpenEncryptedImage] inspect. *)
Lemma opened_fields (path : string) :
  set_Path path Image_zero
    = mkImage path "" 0%N "" "" false false "" 0 0 false "" "" "" "" "" 0 "" "" [].
Proof. vm_compute. reflexivity. Qed.

Lemma opened_encrypted_fields (path secret : string) :
  set_Secret secret (set_Encrypted true (set_Path path Image_zero))
    = mkImage path "" 0%N secret "" true false "" 0 0 false "" "" "" "" "" 0 "" "" [].
Proof. vm_compute. reflexivity. Qed.

(** [OpenImage] on an existing path, in terms of the inspection it runs. *)
Lemma OpenImage_run (path : string) (st : option PathError) (r : CmdResult)
      (script : list CmdResult) :
  IsNotExist st = false ->
  exists res,
    run [r] (retreiveInfos (set_Path path Image_zero)) = Some res
    /\ runFile st (r :: script) (OpenImage path)
       = Some (fst res,
               match snd res with
               | Some e => Some (FromPackage e)
               | None =>
                   if Encrypted (fst res)
                   then Some (FromPackage
                          (Errorf "image is encrypted but secret was not provided"))
                   else None
               end)
    /\ callsFile st (r :: script) (OpenImage path)
       = [["info"; "--output=json"; path]].
Proof.
  intros Hst. unfold OpenImage. cbn [runFile callsFile]. rewrite Hst.
  match goal with
  | |- context [bind (retreiveInfos ?i) ?f] =>
      destruct (run_retreiveInfos_bind i f r script) as (res & Hres & Hrun & Hcalls)
  end.
  exists res. split; [exact Hres |]. rewrite Hrun, Hcalls.
  destruct res as [img [e |]]; cbn [fst snd].
  - split; reflexivity.
  - destruct (Encrypted img); split; reflexivity.
Qed.

(** [OpenEncryptedImage] on an existing path, likewise. *)
Lemma OpenEncryptedImage_run (path secret : string) (st : option PathError)
      (r : CmdResult) (script : list CmdResult) :
  IsNotExist st = false ->
  exists res,
    run [r] (retreiveInfos
               (set_Secret secret (set_Encrypted true (set_Path path Image_zero))))
      = Some res
    /\ runFile st (r :: script) (OpenEncryptedImage path secret)
       = Some (fst res,
               match snd res with
               | Some e => Some (FromPackage e)
               | None =>
                   if String.eqb secret ""
                   then Some (FromPackage
                          (Errorf "cannot open encrypted image without secret"))
                   else if negb (Encrypted (fst res))
                        then Some (FromPackage (Errorf "image is not encrypted"))
                        else None
               end)
    /\ callsFile st (r :: script) (OpenEncryptedImage path secret)
       = [["info"; "--output=json"; path]].
Proof.
  intros Hst. unfold OpenEncryptedImage. cbn [runFile callsFile]. rewrite Hst.
  match goal with
  | |- context [bind (retreiveInfos ?i) ?f] =>
      destruct (run_retreiveInfos_bind i f r script) as (res & Hres & Hrun & Hcalls)
  end.
  exists res. split; [exact Hres |]. rewrite Hrun, Hcalls.
  destruct res as [img [e |]]; cbn [fst snd].
  - split; reflexivity.
  - destruct (String.eqb secret ""); [split; reflexivity |].
    destruct (Encrypted img); split; reflexivity.
Qed.

(** X14. [OpenImage] on an existing path whose inspection succeeds: the
    descriptor carries the path, the reported format and size, the reported
    encryption flag and the snapshots, an empty secret and zero geometry
    (cluster size 0 and refcount bits 0, not the constructors' 64 and 16).
    The error is nil exactly when the report does not say the image is
    encrypted; otherwise the same descriptor comes with the error that the
    secret was not provided. *)
Theorem OpenImage_result (path : string) (st : option PathError) (r : CmdResult)
        (doc : InfoObject.t) (info : imgInfo.t) :
  IsNotExist st = false ->
  failed r = false ->
  out r = Document doc ->
  Unmarshal (out r) = Some info ->
  runFile st [r] (OpenImage path)
    = Some (mkImage path (imgInfo.Format info) (imgInfo.Size info) "" ""
              (reports_encrypted doc) false "" 0 0 false "" "" "" "" "" 0 "" ""
              (flat_map contribution (imgInfo.Snapshots info)),
            if reports_encrypted doc
            then Some (FromPackage
                   (Errorf "image is encrypted but secret was not provided"))
            else None).
Proof.
  intros Hst Hf Ho Hu.
  destruct (OpenImage_run path st r [] Hst) as (res & Hres & Hrun & _).
  rewrite Hrun. rewrite (retreiveInfos_success _ r info Hf Hu) in Hres.
  injection Hres as <-. rewrite ?opened_fields. cbn [fst snd Encrypted Secret].
  rewrite Ho in Hu. apply Unmarshal_Document in Hu as [_ HE].
  unfold reports_encrypted. rewrite <- HE. cbn [String.eqb].
  destruct (imgInfo.Encrypted info); reflexivity.
Qed.

Lemma OpenImage_result_witness :
  runFile None [succeeded (Document sample_document)] (OpenImage "disk.qcow2")
    = Some (mkImage "disk.qcow2" "qcow2" 5368709120 "" "" false false "" 0 0 false
              "" "" "" "" "" 0 "" ""
              [mkSnapshot 1 "base" (Unix 1700000000 5) (Unix 12 7);
               mkSnapshot 3 "nightly" (Unix 1700000200 9) (Unix 14 1)],
            None).
Proof.
  apply (OpenImage_result "disk.qcow2" None (succeeded (Document sample_document))
           sample_document
           (imgInfo.mk
              [snapshotInfo.mk "1" "base" 1700000000 5 12 7;
               snapshotInfo.mk "x2" "broken" 1700000100 0 13 0;
               snapshotInfo.mk "3" "nightly" 1700000200 9 14 1]
              "qcow2" 5368709120 false)).
  - reflexivity.
  - reflexivity.
  - reflexivity.
  - vm_compute. reflexivity.
Defined.

(** X15. When the inspection fails (the tool's run fails or its output is
    rejected), [OpenImage] and [OpenEncryptedImage] pass that error on; the
    descriptor returned holds what was set before the inspection and nothing
    from the tool. *)
Theorem Open_inspection_error (path secret : string) (st : option PathError)
        (r : CmdResult) :
  IsNotExist st = false ->
  failed r = true \/ Unmarshal (out r) = None ->
  exists e,
    runFile st [r] (OpenImage path)
      = Some (set_Path path Image_zero, Some (FromPackage e))
    /\ runFile st [r] (OpenEncryptedImage path secret)
       = Some (set_Secret secret (set_Encrypted true (set_Path path Image_zero)),
               Some (FromPackage e))
    /\ e = (if failed r then ToolOutputError "info" (out r)
            else Errorf "'qemu-img info' invalid json output").
Proof.
  intros Hst Hbad.
  destruct (OpenImage_run path st r [] Hst) as (res1 & Hres1 & Hrun1 & _).
  destruct (OpenEncryptedImage_run path secret st r [] Hst) as (res2 & Hres2 & Hrun2 & _).
  rewrite Hrun1, Hrun2.
  destruct (retreiveInfos_cases (set_Path path Image_zero) r)
    as [[Hf Hr1] | [(Hf & Hu & Hr1) | (Hf & info & j & Hu & Hr1)]];
    destruct (retreiveInfos_cases
                (set_Secret secret (set_Encrypted true (set_Path path Image_zero))) r)
    as [[Hf' Hr2] | [(Hf' & Hu' & Hr2) | (Hf' & info' & j' & Hu' & Hr2)]];
    try congruence;
    try (destruct Hbad; congruence).
  - rewrite Hr1 in Hres1. rewrite Hr2 in Hres2.
    injection Hres1 as <-. injection Hres2 as <-. rewrite Hf. cbn [fst snd].
    eexists. repeat split.
  - rewrite Hr1 in Hres1. rewrite Hr2 in Hres2.
    injection Hres1 as <-. injection Hres2 as <-. rewrite Hf. cbn [fst snd].
    eexists. repeat split.
Qed.

Lemma Open_inspection_error_witness :
  exists e,
    runFile None [succeeded (Text "not json")] (OpenImage "disk.qcow2")
      = Some (set_Path "disk.qcow2" Image_zero, Some (FromPackage e))
    /\ runFile None [succeeded (Text "not json")]
         (OpenEncryptedImage "disk.qcow2" "secret1")
       = Some (set_Secret "secret1"
                 (set_Encrypted true (set_Path "disk.qcow2" Image_zero)),
               Some (FromPackage e))
    /\ e = Errorf "'qemu-img info' invalid json output".
Proof.
  apply (Open_inspection_error "disk.qcow2" "secret1" None (succeeded (Text "not json"))).
  - reflexivity.
  - right. reflexivity.
Defined.

(** X16. [OpenEncryptedImage] with a non-empty secret, on an existing path
    whose inspection succeeds, returns a nil error and a descriptor with
    [Encrypted = true] and the secret, whatever the report says about
    encryption: an image reported as not encrypted is opened all the same. *)
Theorem OpenEncryptedImage_with_secret (path secret : string) (st : option PathError)
        (r : CmdResult) (info : imgInfo.t) :
  secret <> "" ->
  IsNotExist st = false ->
  failed r = false ->
  Unmarshal (out r) = Some info ->
  runFile st [r] (OpenEncryptedImage path secret)
    = Some (mkImage path (imgInfo.Format info) (imgInfo.Size info) secret ""
              true false "" 0 0 false "" "" "" "" "" 0 "" ""
              (flat_map contribution (imgInfo.Snapshots info)),
            None).
Proof.
  intros Hs Hst Hf Hu.
  destruct (OpenEncryptedImage_run path secret st r [] Hst) as (res & Hres & Hrun & _).
  rewrite Hrun. rewrite (retreiveInfos_success _ r info Hf Hu) in Hres.
  injection Hres as <-. rewrite ?opened_encrypted_fields. cbn [fst snd Encrypted Secret].
  apply String.eqb_neq in Hs. rewrite Hs. reflexivity.
Qed.

Lemma OpenEncryptedImage_with_secret_witness :
  runFile None [succeeded (Document sample_document)]
    (OpenEncryptedImage "disk.qcow2" "secret1")
    = Some (mkImage "disk.qcow2" "qcow2" 5368709120 "secret1" "" true false "" 0 0
              false "" "" "" "" "" 0 "" ""
              [mkSnapshot 1 "base" (Unix 1700000000 5) (Unix 12 7);
               mkSnapshot 3 "nightly" (Unix 1700000200 9) (Unix 14 1)],
            None).
Proof.
  apply (OpenEncryptedImage_with_secret "disk.qcow2" "secret1" None
           (succeeded (Document sample_document))
           (imgInfo.mk
              [snapshotInfo.mk "1" "base" 1700000000 5 12 7;
               snapshotInfo.mk "x2" "broken" 1700000100 0 13 0;
               snapshotInfo.mk "3" "nightly" 1700000200 9 14 1]
              "qcow2" 5368709120 false)).
  - discriminate.
  - reflexivity.
  - reflexivity.
  - vm_compute. reflexivity.
Defined.

(** X17. [OpenEncryptedImage] never returns the error [image is not
    encrypted], whatever the path, the secret, the file system and the tool
    answer: with an empty secret the missing secret is reported first, and
    with a non-empty one the inspection has forced [Encrypted] to true. *)
Theorem OpenEncryptedImage_never_not_encrypted (path secret : string)
        (st : option PathError) (script : list CmdResult) (img : Image) :
  runFile st script (OpenEncryptedImage path secret)
    <> Some (img, Some (FromPackage (Errorf "image is not encrypted"))).
Proof.
  destruct (IsNotExist st) eqn:Hst.
  - destruct st as [e |]; [| discriminate Hst].
    unfold OpenEncryptedImage. cbn [runFile]. rewrite Hst. cbn [run option_map].
    discriminate.
  - destruct script as [| r script].
    + unfold OpenEncryptedImage, retreiveInfos. cbn [runFile]. rewrite Hst.
      cbn [bind CombinedOutput run]. discriminate.
    + destruct (OpenEncryptedImage_run path secret st r script Hst)
        as (res & Hres & Hrun & _).
      rewrite Hrun.
      destruct (retreiveInfos_cases
                  (set_Secret secret (set_Encrypted true (set_Path path Image_zero))) r)
        as [[Hf Hr] | [(Hf & Hu & Hr) | (Hf & info & j & Hu & Hr)]];
        rewrite Hr in Hres; injection Hres as <-; cbn [fst snd]; try discriminate.
      rewrite (retreiveInfos_success _ r info Hf Hu) in Hr. injection Hr as <-.
      rewrite ?opened_encrypted_fields. cbn [Secret Encrypted].
      destruct (String.eqb secret ""); cbn [negb]; discriminate.
Qed.

(** X18. [OpenEncryptedImage] with an empty secret never succeeds; yet on an
    existing path it invokes the tool before it says so. *)
Theorem OpenEncryptedImage_empty_secret (path : string) (st : option PathError)
        (script : list CmdResult) :
  (forall img err,
      runFile st script (OpenEncryptedImage path "") = Some (img, err) -> err <> None)
  /\ (IsNotExist st = false ->
      callsFile st script (OpenEncryptedImage path "")
        = [["info"; "--output=json"; path]]).
Proof.
  split.
  - intros img err H. destruct (IsNotExist st) eqn:Hst.
    + destruct st as [e |]; [| discriminate Hst].
      unfold OpenEncryptedImage in H. cbn [runFile] in H. rewrite Hst in H.
      cbn [run option_map] in H. injection H as <- <-. discriminate.
    + destruct script as [| r script].
      * unfold OpenEncryptedImage, retreiveInfos in H. cbn [runFile] in H.
        rewrite Hst in H. cbn [bind CombinedOutput run] in H. discriminate H.
      * destruct (OpenEncryptedImage_run path "" st r script Hst)
          as ([i' e'] & _ & Hrun & _).
        rewrite Hrun in H. cbn [fst snd String.eqb] in H.
        injection H as <- <-. destruct e'; discriminate.
  - intros Hst. destruct script as [| r script].
    + unfold OpenEncryptedImage, retreiveInfos. cbn [callsFile]. rewrite Hst.
      reflexivity.
    + destruct (OpenEncryptedImage_run path "" st r script Hst) as (res & _ & _ & Hc).
      exact Hc.
Qed.

Lemma OpenEncryptedImage_empty_secret_witness :
  runFile None [succeeded (Document sample_document)] (OpenEncryptedImage "disk.qcow2" "")
    <> Some (Image_zero, None)
  /\ callsFile None [succeeded (Document sample_document)]
       (OpenEncryptedImage "disk.qcow2" "")
     = [["info"; "--output=json"; "disk.qcow2"]].
Proof.
  split.
  - intros H.
    exact (proj1 (OpenEncryptedImage_empty_secret "disk.qcow2" None
                    [succeeded (Document sample_document)])
             Image_zero None H eq_refl).
  - apply (proj2 (OpenEncryptedImage_empty_secret "disk.qcow2" None
                    [succeeded (Document sample_document)])).
    reflexivity.
Defined.

(** X19. A descriptor that [OpenImage] returned without error has zero
    geometry, so [Create] on it asks for [cluster_size=0K] and
    [refcount_bits=0]: the invocation is [create -f <format> -o
    cluster_size=0K -o preallocation=metadata -o refcount_bits=0 <path>
    <size>]. *)
Theorem Create_after_OpenImage (path : string) (st : option PathError) (r : CmdResult)
        (img : Image) :
  runFile st [r] (OpenImage path) = Some (img, None) ->
  first_call (Create img)
    = Some ["create"; "-f"; Format img; "-o"; "cluster_size=0K";
            "-o"; "preallocation=metadata"; "-o"; "refcount_bits=0";
            path; FormatUint (Size img)].
Proof.
  intros H. destruct (IsNotExist st) eqn:Hst.
  - destruct st as [e |]; [| discriminate Hst].
    unfold OpenImage in H. cbn [runFile] in H. rewrite Hst in H.
    cbn [run option_map] in H. discriminate H.
  - destruct (OpenImage_run path st r [] Hst) as (res & Hres & Hrun & _).
    rewrite Hrun in H.
    destruct (retreiveInfos_cases (set_Path path Image_zero) r)
      as [[Hf Hr] | [(Hf & Hu & Hr) | (Hf & info & j & Hu & Hr)]];
      rewrite Hr in Hres; injection Hres as <-; cbn [fst snd] in H; try discriminate H.
    rewrite (retreiveInfos_success _ r info Hf Hu) in Hr. injection Hr as <-.
    rewrite ?opened_fields in H. cbn [Secret Encrypted String.eqb] in H.
    destruct (imgInfo.Encrypted info) eqn:HE; [discriminate H |].
    injection H as <-. cbn [Path Format Size].
    rewrite Create_plain_eq by reflexivity. vm_compute. reflexivity.
Qed.

Lemma Create_after_OpenImage_witness :
  first_call (Create (mkImage "disk.qcow2" "qcow2" 5368709120 "" "" false false ""
                        0 0 false "" "" "" "" "" 0 "" ""
                        [mkSnapshot 1 "base" (Unix 1700000000 5) (Unix 12 7);
                         mkSnapshot 3 "nightly" (Unix 1700000200 9) (Unix 14 1)]))
    = Some ["create"; "-f"; "qcow2"; "-o"; "cluster_size=0K";
            "-o"; "preallocation=metadata"; "-o"; "refcount_bits=0";
            "disk.qcow2"; "5368709120"].
Proof.
  apply (Create_after_OpenImage "disk.qcow2" None
           (succeeded (Document sample_document))).
  vm_compute. reflexivity.
Defined.

(** ** Setting a backing file *)

(** X20. [SetBackingFile] asks [os.Stat] about the backing file and never
    invokes the tool.  If the file does not exist the error is returned and
    the descriptor is unchanged; in every other case, an [os.Stat] error of
    another kind included, only [BackingFile] is replaced and the error is
    nil. *)
Theorem SetBackingFile_result (i : Image) (backingFile : string)
        (st : option PathError) (script : list CmdResult) :
  statName (SetBackingFile i backingFile) = backingFile
  /\ callsFile st script (SetBackingFile i backingFile) = []
  /\ runFile st script (SetBackingFile i backingFile)
     = Some (match st with
             | Some e =>
                 if NotExist e then (i, Some (FromStat e))
                 else (set_BackingFile backingFile i, None)
             | None => (set_BackingFile backingFile i, None)
             end)
  /\ set_BackingFile backingFile i
     = mkImage (Path i) (Format i) (Size i) (Secret i) backingFile (Encrypted i)
         (LazyRefcounts i) (CompatLevel i) (RefcountBits i) (ClusterSizeKB i)
         (ExtendedL2 i) (Preallocation i) (CipherAlgorithm i) (CipherMode i)
         (CipherFormat i) (CipherHashAlg i) (EncryptIterTime i)
         (EncryptIvGenAlg i) (EncryptIvGenHashAlg i) (snapshots i).
Proof.
  unfold SetBackingFile. cbn [statName callsFile runFile].
  split; [reflexivity |].
  destruct st as [[p ne] |]; cbn [IsNotExist NotExist]; [destruct ne |];
    cbn [run calls option_map]; repeat split.
Qed.

(** X21. A backing file set by [SetBackingFile] on a fresh plain descriptor
    becomes the first option of [Create]: [create -f <format> -o
    backing_file=<file> -o preallocation=metadata <path> <size>]. *)
Theorem Create_after_SetBackingFile (path format backingFile : string) (size : N)
        (st : option PathError) :
  backingFile <> "" ->
  IsNotExist st = false ->
  exists i,
    runFile st [] (SetBackingFile (NewImage path format size) backingFile)
      = Some (i, None)
    /\ first_call (Create i)
       = Some ["create"; "-f"; format; "-o"; "backing_file=" ++ backingFile;
               "-o"; "preallocation=metadata"; path; FormatUint size].
Proof.
  intros Hb Hst. unfold SetBackingFile. cbn [runFile]. rewrite Hst. cbn [run].
  eexists. split; [reflexivity |].
  rewrite NewImage_fields. rewrite Create_plain_eq by reflexivity.
  destruct backingFile as [| c rest]; [contradiction |].
  vm_compute. reflexivity.
Qed.

Lemma Create_after_SetBackingFile_witness :
  exists i,
    runFile None [] (SetBackingFile (NewImage "child.qcow2" "qcow2" (5 * GiB))
                       "base.qcow2")
      = Some (i, None)
    /\ first_call (Create i)
       = Some ["create"; "-f"; "qcow2"; "-o"; "backing_file=" ++ "base.qcow2";
               "-o"; "preallocation=metadata"; "child.qcow2";
               FormatUint (5 * GiB)].
Proof.
  apply (Create_after_SetBackingFile "child.qcow2" "qcow2" "base.qcow2" (5 * GiB) None).
  - discriminate.
  - reflexivity.
Defined.

(** ** Snapshot operations, both branches *)

(** X22. For an image that is not encrypted the snapshot operations invoke
    [snapshot -c|-a|-d <name> <path>]; a secret the descriptor may hold is
    not passed. *)
Theorem snapshot_args_plain (i : Image) (name : string) :
  Encrypted i = false ->
  first_call (CreateSnapshot i name) = Some ["snapshot"; "-c"; name; Path i]
  /\ first_call (RestoreSnapshot i name) = Some ["snapshot"; "-a"; name; Path i]
  /\ first_call (DeleteSnapshot i name) = Some ["snapshot"; "-d"; name; Path i].
Proof.
  intros HE. unfold CreateSnapshot, RestoreSnapshot, DeleteSnapshot.
  rewrite HE. cbn [Bool.eqb first_call bind CombinedOutput]. repeat split.
Qed.

Lemma snapshot_args_plain_witness :
  let i := set_Secret "secret1" (NewImage "disk.qcow2" ImageFormatQCOW2 (5 * GiB)) in
  first_call (CreateSnapshot i "snap1") = Some ["snapshot"; "-c"; "snap1"; Path i]
  /\ first_call (RestoreSnapshot i "snap1") = Some ["snapshot"; "-a"; "snap1"; Path i]
  /\ first_call (DeleteSnapshot i "snap1") = Some ["snapshot"; "-d"; "snap1"; Path i].
Proof.
  apply (snapshot_args_plain
           (set_Secret "secret1" (NewImage "disk.qcow2" ImageFormatQCOW2 (5 * GiB)))
           "snap1").
  reflexivity.
Defined.

(** X23. [RestoreSnapshot] and [DeleteSnapshot] return an error exactly when
    the tool's run fails, and the error carries the tool's output; the
    descriptor plays no part in the result. *)
Theorem Restore_Delete_result (i : Image) (name : string) (r : CmdResult) :
  run [r] (RestoreSnapshot i name) = Some (tool_error "snapshot" r)
  /\ run [r] (DeleteSnapshot i name) = Some (tool_error "snapshot" r)
  /\ (tool_error "snapshot" r = None <-> failed r = false).
Proof.
  unfold RestoreSnapshot, DeleteSnapshot, tool_error.
  destruct (Encrypted i); cbn [Bool.eqb bind CombinedOutput run];
    destruct (failed r); cbn [run]; repeat split; intros; congruence.
Qed.

(** X24. The snapshot invocations are determined by the encryption flag, the
    secret, the path and the name alone: cipher format, cipher suite and
    geometry of the descriptor play no part, so the image options always say
    [encrypt.format=luks]. *)
Theorem snapshot_args_depend (i j : Image) (name : string) :
  Encrypted i = Encrypted j ->
  Secret i = Secret j ->
  Path i = Path j ->
  first_call (CreateSnapshot i name) = first_call (CreateSnapshot j name)
  /\ first_call (RestoreSnapshot i name) = first_call (RestoreSnapshot j name)
  /\ first_call (DeleteSnapshot i name) = first_call (DeleteSnapshot j name)
  /\ first_call (CreateSnapshot i name) = Some (snapshot_args i "-c" name)
  /\ first_call (RestoreSnapshot i name) = Some (snapshot_args i "-a" name)
  /\ first_call (DeleteSnapshot i name) = Some (snapshot_args i "-d" name).
Proof.
  intros HE HS HP.
  unfold CreateSnapshot, RestoreSnapshot, DeleteSnapshot, snapshot_args.
  rewrite HE, HS, HP.
  destruct (Encrypted j); cbn [Bool.eqb first_call bind CombinedOutput]; repeat split.
Qed.

Lemma snapshot_args_depend_witness :
  let i := fst (NewEncryptedImage "enc.qcow2" ImageFormatQCOW2 "secret1" (5 * GiB)) in
  let j := set_CipherFormat CipherFormatAES (OptimizeSpeed i) in
  first_call (CreateSnapshot i "s") = first_call (CreateSnapshot j "s")
  /\ first_call (RestoreSnapshot i "s") = first_call (RestoreSnapshot j "s")
  /\ first_call (DeleteSnapshot i "s") = first_call (DeleteSnapshot j "s")
  /\ first_call (CreateSnapshot i "s") = Some (snapshot_args i "-c" "s")
  /\ first_call (RestoreSnapshot i "s") = Some (snapshot_args i "-a" "s")
  /\ first_call (DeleteSnapshot i "s") = Some (snapshot_args i "-d" "s").
Proof.
  apply (snapshot_args_depend
           (fst (NewEncryptedImage "enc.qcow2" ImageFormatQCOW2 "secret1" (5 * GiB)))
           (set_CipherFormat CipherFormatAES
              (OptimizeSpeed
                 (fst (NewEncryptedImage "enc.qcow2" ImageFormatQCOW2 "secret1"
                         (5 * GiB)))))
           "s").
  - vm_compute. reflexivity.
  - vm_compute. reflexivity.
  - vm_compute. reflexivity.
Defined.

(** Sequencing after [Snapshots]: it consumes exactly one result. *)
Lemma run_Snapshots_bind {B : Type} (i : Image)
      (f : list Snapshot * option error -> Proc B)
      (r : CmdResult) (script : list CmdResult) :
  exists res,
    run [r] (Snapshots i) = Some res
    /\ run (r :: script) (bind (Snapshots i) f) = run script (f res)
    /\ calls (r :: script) (bind (Snapshots i) f) = info_args i :: calls script (f res).
Proof.
  unfold Snapshots, retreiveInfos, info_args. cbn [bind CombinedOutput run calls].
  destruct (failed r); cbn [bind run calls].
  - eexists. repeat split.
  - destruct (Unmarshal (out r)); cbn [bind run calls].
    + match goal with
      | |- context [if ?c then _ else _] => destruct c
      end; cbn [bind run calls]; eexists; repeat split.
    + eexists. repeat split.
Qed.

Lemma CreateSnapshot_failed (i : Image) (name : string) (r1 : CmdResult)
      (script : list CmdResult) :
  failed r1 = true ->
  run (r1 :: script) (CreateSnapshot i name)
    = Some (Snapshot_zero, Some (ToolOutputError "snapshot" (out r1)))
  /\ calls (r1 :: script) (CreateSnapshot i name) = [snapshot_args i "-c" name].
Proof.
  intros Hf. unfold CreateSnapshot, snapshot_args.
  destruct (Encrypted i); cbn [Bool.eqb bind CombinedOutput run calls];
    rewrite Hf; split; reflexivity.
Qed.

Lemma CreateSnapshot_listed (i : Image) (name : string) (r1 r2 : CmdResult)
      (script : list CmdResult) :
  failed r1 = false ->
  exists res,
    run [r2] (Snapshots i) = Some res
    /\ run (r1 :: r2 :: script) (CreateSnapshot i name) = Some (lookup_result name res)
    /\ calls (r1 :: r2 :: script) (CreateSnapshot i name)
       = [snapshot_args i "-c" name; info_args i].
Proof.
  intros Hf. unfold CreateSnapshot, snapshot_args.
  destruct (Encrypted i); cbn [Bool.eqb bind CombinedOutput run calls]; rewrite Hf;
    match goal with
    | |- context [bind (Snapshots i) ?f] =>
        destruct (run_Snapshots_bind i f r2 script) as (res & Hres & Hrun & Hcalls)
    end;
    exists res; rewrite Hrun, Hcalls; (split; [exact Hres |]);
    unfold lookup_result; destruct res as [snaps [e |]]; cbn [fst snd];
    try (split; reflexivity);
    destruct (scanByName name snaps Snapshot_zero) as [snap [|]]; split; reflexivity.
Qed.

Lemma scanByName_found (name : string) (snaps : list Snapshot) (zero s : Snapshot) :
  scanByName name snaps zero = (s, true) -> In s snaps /\ Name s = name.
Proof.
  induction snaps as [| x snaps IH]; cbn.
  - discriminate.
  - destruct (String.eqb (Name x) name) eqn:E.
    + intros H. injection H as <-. apply String.eqb_eq in E. auto.
    + intros H. destruct (IH H). auto.
Qed.

(** X25. When the [snapshot -c] run fails, [CreateSnapshot] returns the zero
    snapshot with the tool's error and stops: the listing is not requested,
    whatever results are still to come. *)
Theorem CreateSnapshot_tool_failure (i : Image) (name : string) (r1 : CmdResult)
        (script : list CmdResult) :
  failed r1 = true ->
  run (r1 :: script) (CreateSnapshot i name)
    = Some (Snapshot_zero, Some (ToolOutputError "snapshot" (out r1)))
  /\ List.length (calls (r1 :: script) (CreateSnapshot i name)) = 1%nat.
Proof.
  intros Hf. destruct (CreateSnapshot_failed i name r1 script Hf) as [Hr Hc].
  rewrite Hr, Hc. split; reflexivity.
Qed.

Lemma CreateSnapshot_tool_failure_witness :
  run [mkCmdResult (Text "lock held") true; succeeded (Document twin_document)]
      (CreateSnapshot opened_plain "nightly")
    = Some (Snapshot_zero, Some (ToolOutputError "snapshot" (Text "lock held")))
  /\ List.length
       (calls [mkCmdResult (Text "lock held") true; succeeded (Document twin_document)]
          (CreateSnapshot opened_plain "nightly")) = 1%nat.
Proof.
  apply (CreateSnapshot_tool_failure opened_plain "nightly"
           (mkCmdResult (Text "lock held") true)
           [succeeded (Document twin_document)]).
  reflexivity.
Defined.

(** X26. A nil error from [CreateSnapshot] is sound: the [snapshot -c] run
    succeeded, the listing succeeded, and the snapshot returned is an entry
    of that listing whose name is the requested one. *)
Theorem CreateSnapshot_nil_error (i : Image) (name : string) (r1 r2 : CmdResult)
        (s : Snapshot) :
  run [r1; r2] (CreateSnapshot i name) = Some (s, None) ->
  failed r1 = false
  /\ Name s = name
  /\ exists snaps, run [r2] (Snapshots i) = Some (snaps, None) /\ In s snaps.
Proof.
  intros H. destruct (failed r1) eqn:Hf.
  - rewrite (proj1 (CreateSnapshot_failed i name r1 [r2] Hf)) in H. discriminate H.
  - destruct (CreateSnapshot_listed i name r1 r2 [] Hf) as (res & Hres & Hrun & _).
    rewrite Hrun in H. unfold lookup_result in H.
    destruct res as [snaps [e |]]; cbn [fst snd] in H; [discriminate H |].
    destruct (scanByName name snaps Snapshot_zero) as [snap [|]] eqn:Hscan;
      cbn [fst snd] in H; [| discriminate H].
    injection H as ->.
    destruct (scanByName_found name snaps Snapshot_zero s Hscan) as [Hin Hname].
    split; [reflexivity |]. split; [exact Hname |].
    exists snaps. split; [exact Hres | exact Hin].
Qed.

Lemma CreateSnapshot_nil_error_witness :
  let s := mkSnapshot 2 "nightly" (Unix 1700000100 0) (Unix 13 0) in
  failed (succeeded (Text "")) = false
  /\ Name s = "nightly"
  /\ exists snaps,
       run [succeeded (Document twin_document)] (Snapshots opened_plain)
         = Some (snaps, None)
       /\ In s snaps.
Proof.
  apply (CreateSnapshot_nil_error opened_plain "nightly" (succeeded (Text ""))
           (succeeded (Document twin_document))
           (mkSnapshot 2 "nightly" (Unix 1700000100 0) (Unix 13 0))).
  vm_compute. reflexivity.
Defined.

(** X27. When [snapshot -c] succeeded but the listing that follows fails,
    [CreateSnapshot] returns the zero snapshot with the listing's error: the
    snapshot has been created and the caller is told of an error. *)
Theorem CreateSnapshot_listing_failure (i : Image) (name : string)
        (r1 r2 : CmdResult) (snaps : list Snapshot) (e : error) :
  failed r1 = false ->
  run [r2] (Snapshots i) = Some (snaps, Some e) ->
  run [r1; r2] (CreateSnapshot i name) = Some (Snapshot_zero, Some e)
  /\ calls [r1; r2] (CreateSnapshot i name)
     = [snapshot_args i "-c" name; ["info"; "--output=json"; Path i]].
Proof.
  intros Hf HS.
  destruct (CreateSnapshot_listed i name r1 r2 [] Hf) as (res & Hres & Hrun & Hcalls).
  rewrite Hrun, Hcalls. rewrite HS in Hres. injection Hres as <-.
  split; reflexivity.
Qed.

Lemma CreateSnapshot_listing_failure_witness :
  run [succeeded (Text ""); succeeded (Text "not json")]
      (CreateSnapshot opened_plain "nightly")
    = Some (Snapshot_zero, Some (Errorf "'qemu-img info' invalid json output"))
  /\ calls [succeeded (Text ""); succeeded (Text "not json")]
       (CreateSnapshot opened_plain "nightly")
     = [snapshot_args opened_plain "-c" "nightly";
        ["info"; "--output=json"; Path opened_plain]].
Proof.
  apply (CreateSnapshot_listing_failure opened_plain "nightly" (succeeded (Text ""))
           (succeeded (Text "not json")) []).
  - reflexivity.
  - vm_compute. reflexivity.
Defined.

(** ** No retries *)

Lemma calls_Exec_Ret {A : Type} (args : list string) (k : CmdResult -> Proc A)
      (script : list CmdResult) :
  (forall r, exists a, k r = Ret a) ->
  (List.length (calls script (Exec args k)) <= 1)%nat.
Proof.
  intros Hk. destruct script as [| r rest]; cbn [calls List.length].
  - lia.
  - destruct (Hk r) as [a ->]. cbn. lia.
Qed.

(** X28. No operation retries: whatever the tool answers and however many
    answers are at hand, [Create], [RestoreSnapshot], [DeleteSnapshot],
    [Rebase], [retreiveInfos] and [Snapshots] invoke the tool at most once,
    and [CreateSnapshot] at most twice. *)
Theorem no_retries (i : Image) (name backingFile : string) (script : list CmdResult) :
  (List.length (calls script (Create i)) <= 1)%nat
  /\ (List.length (calls script (RestoreSnapshot i name)) <= 1)%nat
  /\ (List.length (calls script (DeleteSnapshot i name)) <= 1)%nat
  /\ (List.length (calls script (Rebase i backingFile)) <= 1)%nat
  /\ (List.length (calls script (retreiveInfos i)) <= 1)%nat
  /\ (List.length (calls script (Snapshots i)) <= 1)%nat
  /\ (List.length (calls script (CreateSnapshot i name)) <= 2)%nat.
Proof.
  split.
  { destruct (Encrypted i) eqn:HE.
    - destruct (String.eqb (Format i) ImageFormatQCOW2) eqn:HF.
      + apply String.eqb_eq in HF. rewrite (Create_encrypted_eq i HE HF).
        apply calls_Exec_Ret. intros r. unfold create_reply.
        destruct (failed r); eexists; reflexivity.
      + apply String.eqb_neq in HF. rewrite (Create_refused_eq i HE HF). cbn. lia.
    - rewrite (Create_plain_eq i HE).
      apply calls_Exec_Ret. intros r. unfold create_reply.
      destruct (failed r); eexists; reflexivity. }
  split.
  { unfold RestoreSnapshot. destruct (Encrypted i); cbn [Bool.eqb bind CombinedOutput];
      apply calls_Exec_Ret; intros r; cbn [bind]; destruct (failed r); eexists; reflexivity. }
  split.
  { unfold DeleteSnapshot. destruct (Encrypted i); cbn [Bool.eqb bind CombinedOutput];
      apply calls_Exec_Ret; intros r; cbn [bind]; destruct (failed r); eexists; reflexivity. }
  split.
  { unfold Rebase. cbn [bind CombinedOutput].
    apply calls_Exec_Ret; intros r; cbn [bind]; destruct (failed r); eexists; reflexivity. }
  split.
  { unfold retreiveInfos. cbn [bind CombinedOutput].
    apply calls_Exec_Ret; intros r; cbn [bind]; destruct (failed r);
      [| destruct (Unmarshal (out r))]; eexists; reflexivity. }
  split.
  { destruct script as [| r rest].
    - reflexivity.
    - unfold Snapshots, retreiveInfos. cbn [bind CombinedOutput calls].
      destruct (failed r); cbn [bind calls List.length]; [lia |].
      destruct (Unmarshal (out r)); cbn [bind calls List.length]; [| lia].
      match goal with
      | |- context [if ?c then _ else _] => destruct c
      end; cbn [calls List.length]; lia. }
  destruct script as [| r1 [| r2 rest]].
  - unfold CreateSnapshot. destruct (Encrypted i); cbn; lia.
  - destruct (failed r1) eqn:Hf.
    + rewrite (proj2 (CreateSnapshot_failed i name r1 [] Hf)). cbn. lia.
    + unfold CreateSnapshot, Snapshots, retreiveInfos.
      destruct (Encrypted i); cbn [Bool.eqb bind CombinedOutput calls];
        rewrite Hf; cbn [bind calls List.length]; lia.
  - destruct (failed r1) eqn:Hf.
    + rewrite (proj2 (CreateSnapshot_failed i name r1 (r2 :: rest) Hf)). cbn. lia.
    + destruct (CreateSnapshot_listed i name r1 r2 rest Hf) as (res & _ & _ & Hc).
      rewrite Hc. cbn. lia.
Qed.

(** ** The example program *)

(** A continuation that only returns adds no invocation. *)
Lemma calls_bind_Ret {A B : Type} (p : Proc A) (f : A -> Proc B)
      (script : list CmdResult) :
  (forall a, exists b, f a = Ret b) ->
  calls script (bind p f) = calls script p.
Proof.
  intros Hf. revert script.
  induction p as [a | args k IH]; intros script; cbn [bind calls].
  - destruct (Hf a) as [b ->]. reflexivity.
  - destruct script as [| r rest]; [reflexivity |]. rewrite IH. reflexivity.
Qed.

(** X29. The two example functions, when [create] and [snapshot -c] succeed,
    invoke the tool three times: [create] (with the secret object and
    [encrypt.format=luks] for the encrypted volume), [snapshot -c
    myTestSnapshot] and [info --output=json]; neither retries, and the
    constructor error of the encrypted example cannot occur.  When [create]
    fails they panic with the tool's error after that single invocation. *)
Theorem example_volumes (r1 r2 r3 : CmdResult) :
  (failed r1 = false -> failed r2 = false ->
   calls [r1; r2; r3] EncryptedVolume
     = [["create"; "--object"; "secret,id=sec0,data=yourPrivateSecret"; "-f"; "qcow2";
         "-o"; "encrypt.key-secret=sec0"; "-o"; "preallocation=metadata";
         "-o"; "encrypt.format=luks"; "rockyLinux.qcow2"; "107374182400"];
        ["snapshot"; "--object"; "secret,id=sec0,data=yourPrivateSecret";
         "--image-opts"; "-c"; "myTestSnapshot";
         "encrypt.format=luks,encrypt.key-secret=sec0,file.filename=rockyLinux.qcow2"];
        ["info"; "--output=json"; "rockyLinux.qcow2"]]
   /\ calls [r1; r2; r3] StandardVolume
      = [["create"; "-f"; "qcow2"; "-o"; "preallocation=metadata"; "CentOS.qcow2";
          "107374182400"];
         ["snapshot"; "-c"; "myTestSnapshot"; "CentOS.qcow2"];
         ["info"; "--output=json"; "CentOS.qcow2"]])
  /\ (failed r1 = true ->
      run [r1; r2; r3] EncryptedVolume
        = Some (Panicked (ToolOutputError "create" (out r1)))
      /\ run [r1; r2; r3] StandardVolume
         = Some (Panicked (ToolOutputError "create" (out r1)))
      /\ List.length (calls [r1; r2; r3] EncryptedVolume) = 1%nat
      /\ List.length (calls [r1; r2; r3] StandardVolume) = 1%nat).
Proof.
  unfold EncryptedVolume, StandardVolume.
  rewrite NewEncryptedImage_qcow2_fields, NewImage_fields.
  cbv iota beta.
  rewrite Create_encrypted_eq by reflexivity.
  rewrite Create_plain_eq by reflexivity.
  cbn [bind run calls]. unfold create_reply.
  split.
  - intros Hf1 Hf2. rewrite Hf1. cbn [bind].
    rewrite !calls_bind_Ret
      by (intros [snap [e |]]; eexists; reflexivity).
    match goal with
    | |- context [calls [r2; r3] (CreateSnapshot ?i ?n)] =>
        destruct (CreateSnapshot_listed i n r2 r3 [] Hf2) as (res1 & _ & _ & Hc1)
    end.
    rewrite Hc1.
    match goal with
    | |- context [calls [r2; r3] (CreateSnapshot ?i ?n)] =>
        destruct (CreateSnapshot_listed i n r2 r3 [] Hf2) as (res2 & _ & _ & Hc2)
    end.
    rewrite Hc2.
    split; vm_compute; reflexivity.
  - intros Hf1. rewrite Hf1. cbn [bind run calls List.length]. repeat split.
Qed.

Lemma example_volumes_witness :
  let ok := succeeded (Text "") in
  let listing := succeeded (Document twin_document) in
  let locked := mkCmdResult (Text "lock held") true in
  List.length (calls [ok; ok; listing] EncryptedVolume) = 3%nat
  /\ List.length (calls [ok; ok; listing] StandardVolume) = 3%nat
  /\ run [locked; ok; listing] EncryptedVolume
     = Some (Panicked (ToolOutputError "create" (Text "lock held")))
  /\ run [locked; ok; listing] StandardVolume
     = Some (Panicked (ToolOutputError "create" (Text "lock held"))).
Proof.
  cbv zeta.
  destruct (proj1 (example_volumes (succeeded (Text "")) (succeeded (Text ""))
                     (succeeded (Document twin_document))) eq_refl eq_refl)
    as [He Hs].
  destruct (proj2 (example_volumes (mkCmdResult (Text "lock held") true)
                     (succeeded (Text "")) (succeeded (Document twin_document)))
              eq_refl)
    as (Hpe & Hps & _ & _).
  rewrite He, Hs. split; [reflexivity |]. split; [reflexivity |].
  split; [exact Hpe | exact Hps].
Defined.
